(** * LinkForge: the scoped keyword-linking pass of [gui_internal_link_builder.py]

    A shallow embedding of [add_link_to_word], [process_product] and the
    aggregation loop of [start_processing], together with the parts of the
    Python runtime they lean on: [str] methods, the [re] pattern
    [\b(word)\b] with [IGNORECASE], and the BeautifulSoup tree.

    Characters are the ASCII range of [ascii]; [lower] and the word
    characters of [\b] are the ASCII ones. *)

From Stdlib Require Import String Ascii List Bool Arith ZArith Lia.
Import ListNotations.
Set Warnings "-register-all".
Open Scope list_scope.
Open Scope string_scope.

(** ** Python [str] *)

Module PyStr.

(** The double-quote character, as a one-character string. *)
Definition dq : string := String "034"%char EmptyString.

Definition between (lo hi c : ascii) : bool :=
  ((lo <=? c)%char && (c <=? hi)%char)%bool.

Definition is_upper (c : ascii) : bool := between "A" "Z" c.
Definition is_lower (c : ascii) : bool := between "a" "z" c.
Definition is_digit (c : ascii) : bool := between "0" "9" c.
Definition is_alpha (c : ascii) : bool := is_upper c || is_lower c.
Definition is_alnum (c : ascii) : bool := is_alpha c || is_digit c.

(** [c.lower()] on one character. *)
Definition lower_char (c : ascii) : ascii :=
  if is_upper c then ascii_of_nat (nat_of_ascii c + 32) else c.

(** [s.lower()] *)
Fixpoint lower (s : string) : string :=
  match s with
  | EmptyString => EmptyString
  | String c t => String (lower_char c) (lower t)
  end.

(** [not s]: the empty string is the only falsy one. *)
Definition falsy (s : string) : bool :=
  match s with EmptyString => true | _ => false end.

(** [s.startswith(pre)] *)
Fixpoint startswith (pre s : string) : bool :=
  match pre with
  | EmptyString => true
  | String a pre' =>
      match s with
      | EmptyString => false
      | String b s' => Ascii.eqb a b && startswith pre' s'
      end
  end.

(** [s.find(sub)], with [None] for Python's -1. *)
Fixpoint find (sub s : string) : option nat :=
  if startswith sub s then Some 0
  else match s with
       | EmptyString => None
       | String _ t => option_map S (find sub t)
       end.

(** [sub in s] *)
Definition contains (sub s : string) : bool :=
  match find sub s with Some _ => true | None => false end.

(** [s[:n]] and [s[n:]] *)
Fixpoint slice_to (n : nat) (s : string) : string :=
  match n, s with
  | S k, String c t => String c (slice_to k t)
  | _, _ => EmptyString
  end.

Fixpoint slice_from (n : nat) (s : string) : string :=
  match n, s with
  | S k, String _ t => slice_from k t
  | _, _ => s
  end.

(** [s[a:b]] *)
Definition slice (a b : nat) (s : string) : string :=
  slice_to (b - a) (slice_from a s).

(** [s.count(sub)]: occurrences that do not overlap, scanning from the
    left; [skip] is the number of characters of the last occurrence still
    to step over. *)
Fixpoint count_from (skip : nat) (sub s : string) : nat :=
  match s with
  | EmptyString => 0
  | String _ t =>
      match skip with
      | S k => count_from k sub t
      | O => if startswith sub s
             then S (count_from (String.length sub - 1) sub t)
             else count_from 0 sub t
      end
  end.

Definition count (s sub : string) : nat :=
  if falsy sub then S (String.length s) else count_from 0 sub s.

(** [s.replace(old, new, 1)]: the first occurrence only. *)
Definition replace1 (s old new : string) : string :=
  match find old s with
  | None => s
  | Some i => slice_to i s ++ new ++ slice_from (i + String.length old) s
  end.

(** [a != b] *)
Definition neqb (a b : string) : bool := negb (String.eqb a b).

(** [c.isspace()]: tab to carriage return, the four separators, space. *)
Definition isspace (c : ascii) : bool :=
  between "009" "013" c || between "028" " " c.

(** [s.lstrip()], [s.rstrip()] and [s.strip()] *)
Fixpoint lstrip (s : string) : string :=
  match s with
  | EmptyString => EmptyString
  | String c t => if isspace c then lstrip t else s
  end.

Fixpoint rstrip (s : string) : string :=
  match s with
  | EmptyString => EmptyString
  | String c t =>
      match rstrip t with
      | EmptyString => if isspace c then EmptyString else String c EmptyString
      | r => String c r
      end
  end.

Definition strip (s : string) : string := rstrip (lstrip s).

(** A string that does not begin with white space. *)
Definition clean_head (s : string) : Prop :=
  match s with EmptyString => True | String c _ => isspace c = false end.

(** [s.endswith(suffix)] *)
Definition endswith (suffix s : string) : bool :=
  Nat.leb (String.length suffix) (String.length s)
  && String.eqb (slice_from (String.length s - String.length suffix) s) suffix.

(** [s.split(sep)] for a separator that is not empty, as every separator
    of the source is: cut at the first occurrence, go on after it. The
    fuel is never used up, each cut taking at least one character. *)
Fixpoint split_fuel (fuel : nat) (sep s : string) : list string :=
  match fuel with
  | O => [s]
  | S f =>
      match find sep s with
      | None => [s]
      | Some i =>
          slice_to i s :: split_fuel f sep (slice_from (i + String.length sep) s)
      end
  end.

Definition split (sep s : string) : list string :=
  split_fuel (S (String.length s)) sep s.

(** [sep.join(l)] *)
Definition join (sep : string) (l : list string) : string := String.concat sep l.

End PyStr.

(** ** The pattern [re.compile(r'\b(' + re.escape(word) + r')\b', re.IGNORECASE)] *)

Module Re.
Import PyStr.

(** [\w] *)
Definition is_word_char (c : ascii) : bool :=
  is_alnum c || Ascii.eqb c "_".

Definition is_word (o : option ascii) : bool :=
  match o with Some c => is_word_char c | None => false end.

(** [\b] between the character before and the character after a
    position; the ends of the string count as non-word. *)
Definition boundary (prev next : option ascii) : bool :=
  xorb (is_word prev) (is_word next).

(** Two characters are the same under [IGNORECASE]. *)
Definition eq_ci (a b : ascii) : bool :=
  Ascii.eqb (lower_char a) (lower_char b).

Definition head (s : string) : option ascii :=
  match s with EmptyString => None | String c _ => Some c end.

(** The escaped literal [word] matched at the start of [s], ending on a
    [\b]; [prev] is the last character consumed so far. Gives the length
    of the match. *)
Fixpoint match_literal (word : string) (prev : option ascii) (s : string)
  : option nat :=
  match word with
  | EmptyString => if boundary prev (head s) then Some 0 else None
  | String w word' =>
      match s with
      | EmptyString => None
      | String c s' =>
          if eq_ci w c
          then option_map S (match_literal word' (Some c) s')
          else None
      end
  end.

(** The whole pattern tried at one position. *)
Definition match_at (word : string) (prev : option ascii) (s : string)
  : option nat :=
  if boundary prev (head s) then match_literal word prev s else None.

(** A match object: [start()], [end()] and the text of group 1, which
    for this pattern is also group 0. *)
Record match_obj : Type := MatchObj
  { m_start : nat; m_end : nat; m_group : string }.

(** [pattern.search(s)]: the leftmost position where the pattern
    matches; [pos] is the offset of [s] in the subject and [prev] the
    character before it. *)
Fixpoint search_from (word : string) (pos : nat) (prev : option ascii)
         (s : string) : option match_obj :=
  match match_at word prev s with
  | Some n => Some (MatchObj pos (pos + n) (slice_to n s))
  | None =>
      match s with
      | EmptyString => None
      | String c t => search_from word (S pos) (Some c) t
      end
  end.

Definition search (word s : string) : option match_obj :=
  search_from word 0 None s.

(** [pattern.sub(repl, s, count=1)] with a callable [repl]: the first
    match is handed to [repl] and replaced by what it returns, whatever
    that is; no other match is looked at. *)
Definition sub1 (word : string) (repl : match_obj -> string) (s : string)
  : string :=
  match search word s with
  | None => s
  | Some m => slice_to (m_start m) s ++ repl m ++ slice_from (m_end m) s
  end.

(** The character before a position reached by reading [s] after
    [prev]. *)
Fixpoint last_char (prev : option ascii) (s : string) : option ascii :=
  match s with
  | EmptyString => prev
  | String c t => last_char (Some c) t
  end.

End Re.

(** ** The BeautifulSoup tree *)

Module Soup.
Import PyStr.

(** A [NavigableString] or a [Tag]; [attrs] keeps the order in which the
    attributes were written, as the Python dict does. The [BeautifulSoup]
    object itself is the tag named [[document]]. *)
Inductive node : Type :=
| NavigableString (s : string)
| Tag (name : string) (attrs : list (string * string)) (contents : list node).

Definition document (contents : list node) : node :=
  Tag "[document]" [] contents.

(** [tag.name]; a string has none. *)
Definition name (n : node) : option string :=
  match n with Tag nm _ _ => Some nm | NavigableString _ => None end.

Definition has_name (nm : string) (n : node) : bool :=
  match n with Tag nm' _ _ => String.eqb nm' nm | NavigableString _ => false end.

Fixpoint lookup (key : string) (d : list (string * string)) : option string :=
  match d with
  | [] => None
  | (k, v) :: d' => if String.eqb k key then Some v else lookup key d'
  end.

(** [tag.get(key, default)] *)
Definition get (key default : string) (n : node) : string :=
  match n with
  | Tag _ attrs _ =>
      match lookup key attrs with Some v => v | None => default end
  | NavigableString _ => default
  end.

Definition has_attr (key : string) (n : node) : bool :=
  match n with
  | Tag _ attrs _ =>
      match lookup key attrs with Some _ => true | None => false end
  | NavigableString _ => false
  end.

(** [tag.descendants]: every node below the tag, in document order. *)
Fixpoint descendants (n : node) : list node :=
  match n with
  | NavigableString _ => []
  | Tag _ _ cs =>
      (fix walk (l : list node) : list node :=
         match l with
         | [] => []
         | c :: l' => (c :: descendants c) ++ walk l'
         end)%list cs
  end.

(** [tag.get_text()] *)
Fixpoint get_text (n : node) : string :=
  match n with
  | NavigableString s => s
  | Tag _ _ cs =>
      (fix join (l : list node) : string :=
         match l with
         | [] => EmptyString
         | c :: l' => get_text c ++ join l'
         end) cs
  end.

(** [tag.find_all(names)] *)
Definition find_all (names : list string) (n : node) : list node :=
  filter (fun d => existsb (fun nm => has_name nm d) names) (descendants n).

(** [tag.find_all('a', href=True)] *)
Definition find_all_a_href (n : node) : list node :=
  filter (fun d => has_name "a" d && has_attr "href" d) (descendants n).

(** Equality of two attribute dicts: the same keys with the same values,
    in any order. *)
Definition attrs_eqb (a b : list (string * string)) : bool :=
  let included x y :=
    forallb (fun kv => match lookup (fst kv) y with
                       | Some v => String.eqb v (snd kv)
                       | None => false
                       end) x in
  included a b && included b a.

(** [a == b]: the same name, attributes and contents, all the way down. *)
Fixpoint node_eqb (a b : node) : bool :=
  match a, b with
  | NavigableString s, NavigableString t => String.eqb s t
  | Tag n1 a1 c1, Tag n2 a2 c2 =>
      String.eqb n1 n2 && attrs_eqb a1 a2 &&
      (fix all2 (l1 l2 : list node) : bool :=
         match l1, l2 with
         | [], [] => true
         | x :: l1', y :: l2' => node_eqb x y && all2 l1' l2'
         | _, _ => false
         end) c1 c2
  | _, _ => false
  end.

(** The formatter's entity substitution: [&], [<] and [>]. *)
Fixpoint substitute_xml (s : string) : string :=
  match s with
  | EmptyString => EmptyString
  | String c t =>
      (if Ascii.eqb c "&" then "&amp;"
       else if Ascii.eqb c "<" then "&lt;"
       else if Ascii.eqb c ">" then "&gt;"
       else String c EmptyString) ++ substitute_xml t
  end.

Fixpoint replace_dq (s : string) : string :=
  match s with
  | EmptyString => EmptyString
  | String c t =>
      (if Ascii.eqb c "034" then "&quot;" else String c EmptyString)
      ++ replace_dq t
  end.

Definition quoted_attribute_value (value : string) : string :=
  if contains dq value
  then if contains "'" value
       then dq ++ replace_dq value ++ dq
       else "'" ++ value ++ "'"
  else dq ++ value ++ dq.

Fixpoint attribute_string (attrs : list (string * string)) : string :=
  match attrs with
  | [] => EmptyString
  | (k, v) :: rest =>
      " " ++ k ++ "=" ++ quoted_attribute_value (substitute_xml v)
      ++ attribute_string rest
  end.

(** The formatter prints the attributes sorted by name. *)
Fixpoint insert_attr (kv : string * string) (l : list (string * string))
  : list (string * string) :=
  match l with
  | [] => [kv]
  | x :: rest =>
      if String.leb (fst kv) (fst x) then kv :: l
      else x :: insert_attr kv rest
  end.

Definition sorted_attrs (attrs : list (string * string))
  : list (string * string) :=
  fold_right insert_attr [] attrs.

(** Elements written [<br/>] when they have no contents. *)
Definition empty_element_tags : list string :=
  ["area"; "base"; "br"; "col"; "embed"; "hr"; "img"; "input"; "keygen";
   "link"; "menuitem"; "meta"; "param"; "source"; "track"; "wbr";
   "basefont"; "bgsound"; "command"; "frame"; "image"; "isindex";
   "nextid"; "spacer"].

Definition can_be_empty_element (nm : string) : bool :=
  existsb (String.eqb nm) empty_element_tags.

(** [str(tag)] *)
Fixpoint str (n : node) : string :=
  match n with
  | NavigableString s => substitute_xml s
  | Tag nm attrs cs =>
      match cs with
      | [] =>
          if can_be_empty_element nm
          then "<" ++ nm ++ attribute_string (sorted_attrs attrs) ++ "/>"
          else "<" ++ nm ++ attribute_string (sorted_attrs attrs) ++ ">"
               ++ "</" ++ nm ++ ">"
      | _ =>
          "<" ++ nm ++ attribute_string (sorted_attrs attrs) ++ ">"
          ++ (fix join (l : list node) : string :=
                match l with
                | [] => EmptyString
                | c :: l' => str c ++ join l'
                end) cs
          ++ "</" ++ nm ++ ">"
      end
  end.

End Soup.

Import PyStr Re Soup.

(** ** The tree builder of [BeautifulSoup(html, 'html.parser')]

    The fragment of HTML covered: text, start tags with attributes
    (double-quoted, single-quoted, unquoted or bare), end tags, and
    self-closing tags. Comments, declarations, character references and
    the contents of [pre], [script] and [style] are outside it. *)

Module HtmlParser.
Import PyStr Soup.

Definition is_space (c : ascii) : bool :=
  existsb (Ascii.eqb c) [" "; "009"; "010"; "012"; "013"]%char.

(** The longest prefix of characters satisfying [p], and the rest. *)
Fixpoint span (p : ascii -> bool) (s : string) : string * string :=
  match s with
  | EmptyString => (EmptyString, EmptyString)
  | String c t =>
      if p c then let (a, b) := span p t in (String c a, b)
      else (EmptyString, s)
  end.

Inductive token : Type :=
| Data (s : string)
| StartTag (nm : string) (attrs : list (string * string))
| StartEndTag (nm : string) (attrs : list (string * string))
| EndTag (nm : string).

(** A repeated attribute keeps its place and takes the last value. *)
Fixpoint set_attr (k v : string) (d : list (string * string))
  : list (string * string) :=
  match d with
  | [] => [(k, v)]
  | (k', v') :: d' =>
      if String.eqb k' k then (k, v) :: d' else (k', v') :: set_attr k v d'
  end.

(** The attributes whose value is a list of words, by tag. *)
Definition cdata_list_attribute (tag key : string) : bool :=
  let among l := existsb (String.eqb key) l in
  let tag_is l := existsb (String.eqb tag) l in
  among ["class"; "accesskey"; "dropzone"]
  || (tag_is ["a"; "link"] && among ["rel"; "rev"])
  || (tag_is ["td"; "th"] && among ["headers"])
  || (tag_is ["form"] && among ["accept-charset"])
  || (tag_is ["object"] && among ["archive"])
  || (tag_is ["area"] && among ["rel"])
  || (tag_is ["icon"] && among ["sizes"])
  || (tag_is ["iframe"] && among ["sandbox"])
  || (tag_is ["output"] && among ["for"]).

(** The runs of characters that are not white space; [cur] is the run
    being read. *)
Fixpoint nonwhitespace (cur s : string) : list string :=
  match s with
  | EmptyString => if falsy cur then [] else [cur]
  | String c t =>
      if isspace c
      then if falsy cur then nonwhitespace EmptyString t
           else cur :: nonwhitespace EmptyString t
      else nonwhitespace (cur ++ String c EmptyString) t
  end.

(** Such a value is kept as its words, printed with one space between. *)
Definition cdata_lists (tag : string) (attrs : list (string * string))
  : list (string * string) :=
  map (fun kv => if cdata_list_attribute tag (fst kv)
                 then (fst kv, join " " (nonwhitespace EmptyString (snd kv)))
                 else kv)
      attrs.

Definition in_tag_name (c : ascii) : bool :=
  negb (is_space c || Ascii.eqb c "/" || Ascii.eqb c ">").

Definition in_attr_name (c : ascii) : bool :=
  negb (is_space c || Ascii.eqb c "/" || Ascii.eqb c "=" || Ascii.eqb c ">").

(** The attributes of a start tag, up to its closing [>] or [/>]; the
    flag tells a self-closing tag. [None] when the tag is never closed. *)
Fixpoint parse_attrs (fuel : nat) (s : string) (acc : list (string * string))
  : option (list (string * string) * bool * string) :=
  match fuel with
  | O => None
  | S f =>
      let s1 := snd (span is_space s) in
      match s1 with
      | EmptyString => None
      | String c r =>
          if Ascii.eqb c ">" then Some (acc, false, r)
          else if Ascii.eqb c "/" then
            match r with
            | String c' r' =>
                if Ascii.eqb c' ">" then Some (acc, true, r')
                else parse_attrs f r acc
            | EmptyString => None
            end
          else
            let (k, r1) := span in_attr_name r in
            let key := lower (String c k) in
            let r2 := snd (span is_space r1) in
            match r2 with
            | String "=" r3 =>
                let r4 := snd (span is_space (snd (span (Ascii.eqb "=") r3))) in
                match r4 with
                | String q r5 =>
                    if Ascii.eqb q "034" || Ascii.eqb q "'" then
                      let (v, r6) := span (fun x => negb (Ascii.eqb x q)) r5 in
                      match r6 with
                      | String _ r7 => parse_attrs f r7 (set_attr key v acc)
                      | EmptyString => None
                      end
                    else
                      let (v, r6) :=
                        span (fun x => negb (is_space x || Ascii.eqb x ">")) r4 in
                      parse_attrs f r6 (set_attr key v acc)
                | EmptyString => None
                end
            | _ => parse_attrs f r2 (set_attr key EmptyString acc)
            end
      end
  end.

Definition starts_alpha (s : string) : bool :=
  match s with String c _ => is_alpha c | EmptyString => false end.

Fixpoint tokenize (fuel : nat) (s : string) : list token :=
  match fuel with
  | O => []
  | S f =>
      match s with
      | EmptyString => []
      | String c r =>
          if Ascii.eqb c "<" then
            match r with
            | String "/" r1 =>
                if starts_alpha r1 then
                  let (nm, r2) := span in_tag_name r1 in
                  let r3 := snd (span (fun x => negb (Ascii.eqb x ">")) r2) in
                  match r3 with
                  | String _ r4 => EndTag (lower nm) :: tokenize f r4
                  | EmptyString => [Data s]
                  end
                else Data "<" :: tokenize f r
            | _ =>
                if starts_alpha r then
                  let (nm, r2) := span in_tag_name r in
                  match parse_attrs (S (String.length r2)) r2 [] with
                  | Some (attrs, true, r3) =>
                      StartEndTag (lower nm) (cdata_lists (lower nm) attrs)
                      :: tokenize f r3
                  | Some (attrs, false, r3) =>
                      StartTag (lower nm) (cdata_lists (lower nm) attrs)
                      :: tokenize f r3
                  | None => [Data s]
                  end
                else Data "<" :: tokenize f r
            end
          else
            let (txt, r') := span (fun x => negb (Ascii.eqb x "<")) s in
            Data txt :: tokenize f r'
      end
  end.

(** Text between two tags arrives as one string. *)
Fixpoint merge_data (ts : list token) : list token :=
  match ts with
  | Data a :: rest =>
      match merge_data rest with
      | Data b :: rest' => Data (a ++ b) :: rest'
      | rest' => Data a :: rest'
      end
  | t :: rest => t :: merge_data rest
  | [] => []
  end.

Fixpoint all_space (s : string) : bool :=
  match s with
  | EmptyString => true
  | String c t => is_space c && all_space t
  end.

(** A string of white space only is kept as one newline or one space. *)
Definition end_data (s : string) : string :=
  if all_space s
  then if contains (String "010" EmptyString) s
       then String "010" EmptyString else " "
  else s.

(** An open tag: its name, attributes and the children parsed so far,
    last first. *)
Record frame : Type := Frame
  { f_name : string;
    f_attrs : list (string * string);
    f_kids : list node }.

Definition append_child (n : node) (stack : list frame) : list frame :=
  match stack with
  | f :: below => Frame (f_name f) (f_attrs f) (n :: f_kids f) :: below
  | [] => []
  end.

(** [popTag]: the innermost open tag is closed and joins its parent. *)
Definition pop_tag (stack : list frame) : list frame :=
  match stack with
  | f :: (_ :: _) as below =>
      append_child (Tag (f_name f) (f_attrs f) (rev (f_kids f))) below
  | _ => stack
  end.

(** The open tags, the root left out. *)
Definition open_names (stack : list frame) : list string :=
  map f_name (removelast stack).

(** [_popToTag]: close tags up to and including the innermost open one
    of that name. *)
Fixpoint pop_to_tag (nm : string) (fuel : nat) (stack : list frame)
  : list frame :=
  match fuel with
  | O => stack
  | S k =>
      match stack with
      | f :: (_ :: _) =>
          if String.eqb (f_name f) nm then pop_tag stack
          else pop_to_tag nm k (pop_tag stack)
      | _ => stack
      end
  end.

Definition handle_endtag (nm : string) (stack : list frame) : list frame :=
  if existsb (String.eqb nm) (open_names stack)
  then pop_to_tag nm (List.length stack) stack
  else stack.

Definition handle_starttag (nm : string) (attrs : list (string * string))
           (stack : list frame) : list frame :=
  if can_be_empty_element nm
  then append_child (Tag nm attrs []) stack
  else Frame nm attrs [] :: stack.

Definition feed (stack : list frame) (t : token) : list frame :=
  match t with
  | Data s => append_child (NavigableString (end_data s)) stack
  | StartTag nm attrs => handle_starttag nm attrs stack
  | StartEndTag nm attrs => append_child (Tag nm attrs []) stack
  | EndTag nm => handle_endtag nm stack
  end.

Fixpoint close_all (fuel : nat) (stack : list frame) : list frame :=
  match fuel with
  | O => stack
  | S k => close_all k (pop_tag stack)
  end.

Definition html_parser (html : string) : node :=
  let tokens := merge_data (tokenize (String.length html) html) in
  let stack := fold_left feed tokens [Frame "[document]" [] []] in
  match close_all (List.length stack) stack with
  | f :: _ => document (rev (f_kids f))
  | [] => document []
  end.

End HtmlParser.

(** ** [LinkForgeApp]: the linking pass *)

Section LinkForge.

(** [BeautifulSoup(html, 'html.parser')] *)
Variable BeautifulSoup : string -> node.

(** The first [h2] whose text has 'Product Description' in it. *)
Definition find_heading (soup : node) : option node :=
  List.find (fun tag => contains "Product Description" (get_text tag))
            (find_all ["h2"] soup).

(** The paragraphs after the heading, up to the next [h2]:
    the loop over [soup.find_all(['h2', 'p'])] with its flag. *)
Fixpoint paragraphs_after (h2 : node) (found_h2 : bool) (tags : list node)
  : list node :=
  match tags with
  | [] => []
  | tag :: rest =>
      if node_eqb tag h2 then paragraphs_after h2 true rest
      else if found_h2 then
        if has_name "p" tag then tag :: paragraphs_after h2 found_h2 rest
        else if has_name "h2" tag then []
        else paragraphs_after h2 found_h2 rest
      else paragraphs_after h2 found_h2 rest
  end.

(** Some link of the tag goes to [link_url] and shows [word]. *)
Definition has_link (tag : node) (word link_url : string) : bool :=
  existsb (fun link =>
             contains link_url (get "href" EmptyString link)
             && contains (lower word) (lower (get_text link)))
          (find_all_a_href tag).

(** The anchor written around a match. *)
Definition anchor (link_url text : string) : string :=
  "<a href=" ++ dq ++ link_url ++ dq ++ ">" ++ text ++ "</a>".

(** The [replace] callback handed to [pattern.sub]. *)
Definition replace (p_html link_url : string) (m : match_obj) : string :=
  let before := slice_to (m_start m) p_html in
  let open_a := (Z.of_nat (count before "<a ")
                 - Z.of_nat (count before "</a>"))%Z in
  if (open_a >? 0)%Z then m_group m
  else anchor link_url (m_group m).

(** The loop over the paragraphs. *)
Fixpoint link_paragraphs (html word link_url : string)
         (paragraphs : list node) : string :=
  match paragraphs with
  | [] => html
  | p :: rest =>
      let text := get_text p in
      if negb (contains (lower word) (lower text))
      then link_paragraphs html word link_url rest
      else if has_link p word link_url then html
      else
        let p_html := str p in
        let new_p_html := sub1 word (replace p_html link_url) p_html in
        if neqb new_p_html p_html && contains link_url new_p_html
        then replace1 html p_html new_p_html
        else link_paragraphs html word link_url rest
  end.

Definition add_link_to_word (html word link_url : string) : string :=
  if falsy html then html
  else
    let soup := BeautifulSoup html in
    match find_heading soup with
    | None => html
    | Some h2 =>
        link_paragraphs html word link_url
          (paragraphs_after h2 false (find_all ["h2"; "p"] soup))
    end.

(** *** The shop *)

(** What the pass sees of Shopify: the products the storefront serves
    (description and id by product URL), the credentials, whether the
    admin API takes an update, and the calls made to [update_product]. *)
Record shop : Type := Shop
  { storefront : list (string * (string * string));
    shopify_token : string;
    shopify_store : string;
    admin_accepts : string -> string -> bool;
    update_calls : list (string * string) }.

Fixpoint assoc {A : Type} (key : string) (l : list (string * A)) : option A :=
  match l with
  | [] => None
  | (k, v) :: l' => if String.eqb k key then Some v else assoc key l'
  end.

(** [get_product_description]: the description and the gid, or two
    empty strings when the request fails. *)
Definition get_product_description (sh : shop) (product_url : string)
  : string * string :=
  match assoc product_url (storefront sh) with
  | Some (description, product_gid) => (description, product_gid)
  | None => (EmptyString, EmptyString)
  end.

(** The storefront after the admin API took [html] for [product_gid]. *)
Definition store_description (product_gid html : string)
           (l : list (string * (string * string)))
  : list (string * (string * string)) :=
  map (fun e => if String.eqb (snd (snd e)) product_gid
                then (fst e, (html, product_gid)) else e) l.

(** [update_product] *)
Definition update_product (sh : shop) (product_gid html : string)
  : bool * shop :=
  let sh := Shop (storefront sh) (shopify_token sh) (shopify_store sh)
                 (admin_accepts sh)
                 (update_calls sh ++ [(product_gid, html)])%list in
  if falsy (shopify_token sh) || falsy (shopify_store sh) then (false, sh)
  else if admin_accepts sh product_gid html
       then (true, Shop (store_description product_gid html (storefront sh))
                        (shopify_token sh) (shopify_store sh)
                        (admin_accepts sh) (update_calls sh))
       else (false, sh).

(** *** One product *)

(** The dict [process_product] returns, by its ['status']. *)
Inductive result : Type :=
| error (message : string)
| already_linked (word : string)
| no_match
| success (linked : nat) (updated : bool).

(** The check loop over the tags, for one word. *)
Fixpoint linked_after (h2 : node) (found_h2 : bool) (tags : list node)
         (word link_url : string) : bool :=
  match tags with
  | [] => false
  | tag :: rest =>
      if node_eqb tag h2 then linked_after h2 true rest word link_url
      else if found_h2 && has_name "p" tag
              && has_link tag word link_url then true
      else linked_after h2 found_h2 rest word link_url
  end.

Definition is_already_linked (description word link_url : string) : bool :=
  let soup := BeautifulSoup description in
  match find_heading soup with
  | None => false
  | Some h2 =>
      linked_after h2 false (find_all ["h2"; "p"] soup) word link_url
  end.

(** The first loop over [words]: the first word found linked. *)
Definition check_already_linked (description : string) (words : list string)
           (link_url : string) : option string :=
  List.find (fun word => is_already_linked description word link_url) words.

(** The second loop over [words], on [(updated_html, linked_count)]. *)
Definition add_links (description : string) (words : list string)
           (link_url : string) : string * nat :=
  fold_left
    (fun (acc : string * nat) word =>
       let (updated_html, linked_count) := acc in
       let new_html := add_link_to_word updated_html word link_url in
       if neqb new_html updated_html
       then (new_html, S linked_count)
       else (updated_html, linked_count))
    words (description, 0).

Definition process_product (sh : shop) (product_url : string)
           (words : list string) (link_url : string) : result * shop :=
  let (description, product_gid) := get_product_description sh product_url in
  if falsy description then (error "No description", sh)
  else
    match check_already_linked description words link_url with
    | Some word => (already_linked word, sh)
    | None =>
        let (updated_html, linked_count) :=
          add_links description words link_url in
        if Nat.eqb linked_count 0 then (no_match, sh)
        else
          if negb (falsy product_gid) && negb (falsy (shopify_token sh))
          then let (updated, sh') :=
                 update_product sh product_gid updated_html in
               (success linked_count updated, sh')
          else (success linked_count false, sh)
    end.

(** *** The run over a collection *)

(** The [results] dict of [start_processing]. *)
Record results : Type := Results
  { n_success : nat; n_already_linked : nat; n_no_match : nat; n_error : nat }.

Definition tally (r : result) (c : results) : results :=
  match r with
  | success _ _ =>
      Results (S (n_success c)) (n_already_linked c) (n_no_match c) (n_error c)
  | already_linked _ =>
      Results (n_success c) (S (n_already_linked c)) (n_no_match c) (n_error c)
  | no_match =>
      Results (n_success c) (n_already_linked c) (S (n_no_match c)) (n_error c)
  | error _ =>
      Results (n_success c) (n_already_linked c) (n_no_match c) (S (n_error c))
  end.

(** The loop over the products: the counters, the shop, and the result
    of each product in order. *)
Fixpoint run (sh : shop) (products words : list string) (link_url : string)
         (c : results) : results * shop * list result :=
  match products with
  | [] => (c, sh, [])
  | product_url :: rest =>
      let (r, sh') := process_product sh product_url words link_url in
      let '(c', sh'', rs) := run sh' rest words link_url (tally r c) in
      (c', sh'', r :: rs)
  end.

Definition start_results : results := Results 0 0 0 0.

(** *** Vocabulary for the properties *)

(** The scope region of a document: the paragraphs [add_link_to_word]
    works on. *)
Definition scoped_block (html : string) : list node :=
  let soup := BeautifulSoup html in
  match find_heading soup with
  | None => []
  | Some h2 => paragraphs_after h2 false (find_all ["h2"; "p"] soup)
  end.

(** The test of [replace] on the markup before a match: more anchors
    opened than closed. *)
Definition inside_anchor (before : string) : bool :=
  (Z.of_nat (count before "<a ") - Z.of_nat (count before "</a>") >? 0)%Z.

(** The candidate of a paragraph: the first match of the pattern in its
    markup, when [replace] takes it. *)
Definition candidate (p_html word : string) : option match_obj :=
  match search word p_html with
  | Some m =>
      if inside_anchor (slice_to (m_start m) p_html) then None else Some m
  | None => None
  end.

(** The loop passes over a paragraph: the word is not in its text, or
    it has no link to the target around the word and no candidate. *)
Definition passed_over (p : node) (word link_url : string) : bool :=
  negb (contains (lower word) (lower (get_text p)))
  || (negb (has_link p word link_url)
      && match candidate (str p) word with None => true | Some _ => false end).


(** [out] is [html] with one occurrence of the word, in any case, put
    inside one anchor to [link_url]. *)
Definition one_anchor_added (html word link_url out : string) : Prop :=
  exists pre g post,
    html = pre ++ g ++ post /\
    lower g = lower word /\
    out = pre ++ anchor link_url g ++ post.

(** The InsertionPass in the words of the specification: the words in
    order, stopping at the first whose insertion changes the document. *)
Fixpoint InsertionPass_spec (html : string) (keywords : list string)
         (linkTarget : string) : string * nat :=
  match keywords with
  | [] => (html, 0)
  | keyword :: rest =>
      let new_html := add_link_to_word html keyword linkTarget in
      if neqb new_html html then (new_html, 1)
      else InsertionPass_spec html rest linkTarget
  end.

Definition is_success (r : result) : bool :=
  match r with success _ _ => true | _ => false end.

Definition is_error (r : result) : bool :=
  match r with error _ => true | _ => false end.

End LinkForge.

(** ** [LinkForgeApp]: the collection, its products and the run *)

Section Collection.

(** [BeautifulSoup(html, 'html.parser')] *)
Variable BeautifulSoup : string -> node.

(** What [requests.get] answers: the status code, the body as text, and
    what the code reads from [response.json()], the handles of
    [data['collection']['products']] with [''] for a product without one
    and the empty list for an absent key; [None] when [json()] raises or
    the data has not that shape. *)
Record response : Type := Response
  { status_code : nat;
    json_products : option (list string);
    text : string }.

(** [requests.get(url, timeout=30)]; [None] when it raises. *)
Variable requests_get : string -> option response.

(** The handle read off a collection URL. *)
Definition collection_handle (collection_url : string) : string :=
  hd EmptyString
     (split "#"
        (hd EmptyString
            (split "?"
               (last (split "/collections/" collection_url) EmptyString)))).

Definition collection_json_url (handle : string) : string :=
  "https://rezagemcollection.ca/collections/" ++ handle ++ ".json".

Definition collection_page (handle : string) : string :=
  "https://rezagemcollection.ca/collections/" ++ handle.

Definition product_page (handle : string) : string :=
  "https://rezagemcollection.ca/products/" ++ handle.

(** [soup.find_all('a', href=re.compile(r'/products/'))] *)
Definition product_links (soup : node) : list node :=
  filter (fun d => has_name "a" d && has_attr "href" d
                   && contains "/products/" (get "href" EmptyString d))
         (descendants soup).

(** The handle read off the href of a product link. *)
Definition href_handle (href : string) : string :=
  strip
    (hd EmptyString
        (split "#"
           (hd EmptyString
               (split "?" (last (split "/products/" href) EmptyString))))).

(** The loop over the product links, with the set [seen]; gives the
    products appended, in order. *)
Fixpoint scrape_products (hrefs : list string) (seen : list string)
  : list string :=
  match hrefs with
  | [] => []
  | href :: rest =>
      if contains "/products/" href then
        let handle := href_handle href in
        if negb (falsy handle) && negb (existsb (String.eqb handle) seen)
        then product_page handle :: scrape_products rest (handle :: seen)
        else scrape_products rest seen
      else scrape_products rest seen
  end.

(** The fallback of [get_collection_products]: the links of the
    collection page. *)
Definition scrape_collection (collection_url : string) : list string :=
  match requests_get collection_url with
  | None => []
  | Some response =>
      scrape_products
        (map (get "href" EmptyString)
             (product_links (BeautifulSoup (text response))))
        []
  end.

Definition get_collection_products (collection_url : string) : list string :=
  let handle := collection_handle collection_url in
  match requests_get (collection_json_url handle) with
  | None => []
  | Some response =>
      if Nat.eqb (status_code response) 200 then
        match json_products response with
        | None => []
        | Some [] => scrape_collection collection_url
        | Some products => map product_page products
        end
      else scrape_collection collection_url
  end.

(** The handle [get_product_description] reads off a product URL, and
    the URL it fetches. *)
Definition product_handle (product_url : string) : string :=
  hd EmptyString
     (split "?" (last (split "/products/" product_url) EmptyString)).

Definition product_json_url (product_url : string) : string :=
  "https://rezagemcollection.ca/products/" ++ product_handle product_url
  ++ ".json".

(** The host [update_product] posts to, and the URL. *)
Definition shop_domain (shopify_store : string) : string :=
  if endswith ".myshopify.com" shopify_store then shopify_store
  else shopify_store ++ ".myshopify.com".

Definition admin_url (shopify_store : string) : string :=
  "https://" ++ shop_domain shopify_store ++ "/admin/api/2024-01/graphql.json".

(** The words of [start_processing]:
    [[w.strip() for w in words_str.split(',')]]. *)
Definition parse_words (words_str : string) : list string :=
  map strip (split "," words_str).


End Collection.

(** ** [LinkForgeApp]: the collection dropdown *)

Module Dropdown.

(** One entry of [collections.json]: a dict that may have a ['title']
    and a ['handle'], both strings. *)
Record collection : Type := Collection
  { title : option string; handle : option string }.

(** [col.get(key, default)] *)
Definition get_or (default : string) (field : option string) : string :=
  match field with Some v => v | None => default end.

(** The title shown in the dropdown. *)
Definition display (col : collection) : string :=
  get_or "Unknown" (title col) ++ " (" ++ get_or EmptyString (handle col) ++ ")".

Definition collection_placeholder : string := "Type to search collections...".

(** The state the handlers share: the two lists, the values and the text
    of the combobox, the placeholder flag and the two URL fields. *)
Record app : Type := App
  { collections_data : list collection;
    all_collection_titles : list string;
    values : list string;
    dropdown_text : string;
    placeholder_active : bool;
    collection_url_var : string;
    link_url_var : string }.

(** The state at the end of [setup_ui], before the first load. *)
Definition initial : app :=
  App [] [] [] collection_placeholder true EmptyString EmptyString.

(** What [load_collections_dropdown] finds on disk. *)
Inductive json_file : Type :=
| Missing
| Unreadable
| Loaded (data : list collection).

Definition load_collections_dropdown (st : app) (file : json_file) : app :=
  match file with
  | Loaded ((_ :: _) as data) =>
      let titles := map display data in
      App data titles titles (dropdown_text st) (placeholder_active st)
          (collection_url_var st) (link_url_var st)
  | Loaded [] =>
      App [] [] [] (dropdown_text st) (placeholder_active st)
          (collection_url_var st) (link_url_var st)
  | _ =>
      App (collections_data st) [] [] (dropdown_text st)
          (placeholder_active st) (collection_url_var st) (link_url_var st)
  end.

Definition special_keys : list string :=
  ["Up"; "Down"; "Return"; "Tab"; "Escape"; "Shift_L"; "Shift_R";
   "Control_L"; "Control_R"; "Alt_L"; "Alt_R"].

(** The filter loop of [on_collection_search], from index [i] on; [None]
    when [collections_data[i]] raises. *)
Fixpoint filter_titles (search_text : string) (i : nat)
         (titles : list string) (data : list collection)
  : option (list string) :=
  match titles with
  | [] => Some []
  | t :: rest =>
      match nth_error data i with
      | None => None
      | Some col =>
          let title_lower := lower t in
          let handle_lower := lower (get_or EmptyString (handle col)) in
          match filter_titles search_text (S i) rest data with
          | None => None
          | Some filtered =>
              if contains search_text title_lower
                 || contains search_text handle_lower
              then Some (t :: filtered)
              else Some filtered
          end
      end
  end.

(** [on_collection_search]; [keysym] is the key of the event, if any. *)
Definition on_collection_search (st : app) (keysym : option string) : app :=
  if match keysym with
     | Some k => existsb (String.eqb k) special_keys
     | None => false
     end
  then st
  else
    let search_text := dropdown_text st in
    let cleared :=
      placeholder_active st || String.eqb search_text collection_placeholder in
    let search_text := if cleared then EmptyString else search_text in
    let text := if cleared then EmptyString else dropdown_text st in
    let active := if cleared then false else placeholder_active st in
    let search_text := strip (lower search_text) in
    if falsy search_text
    then App (collections_data st) (all_collection_titles st)
             (all_collection_titles st) text active
             (collection_url_var st) (link_url_var st)
    else
      match filter_titles search_text 0 (all_collection_titles st)
                          (collections_data st) with
      | Some filtered =>
          App (collections_data st) (all_collection_titles st)
              filtered text active (collection_url_var st) (link_url_var st)
      | None =>
          App (collections_data st) (all_collection_titles st)
              (values st) text active (collection_url_var st) (link_url_var st)
      end.

Definition collection_url (h : string) : string :=
  "https://rezagemcollection.ca/collections/" ++ h.

(** The first loop of [on_collection_selected]: the titles, from index
    [i] on. *)
Fixpoint select_by_title (selected_text : string) (i : nat)
         (titles : list string) (data : list collection) : option string :=
  match titles with
  | [] => None
  | t :: rest =>
      if String.eqb t selected_text || contains selected_text t then
        match nth_error data i with
        | Some col =>
            let h := get_or EmptyString (handle col) in
            if negb (falsy h) then Some (collection_url h)
            else select_by_title selected_text (S i) rest data
        | None => select_by_title selected_text (S i) rest data
        end
      else select_by_title selected_text (S i) rest data
  end.

(** The second loop: the handles and titles of the collections. *)
Fixpoint select_by_search (search_text : string) (data : list collection)
  : option string :=
  match data with
  | [] => None
  | col :: rest =>
      let h := lower (get_or EmptyString (handle col)) in
      let t := lower (get_or EmptyString (title col)) in
      if contains search_text h || contains search_text t
      then Some (collection_url (get_or EmptyString (handle col)))
      else select_by_search search_text rest
  end.

(** The URL [on_collection_selected] settles on, if any. *)
Definition selected_url (st : app) : option string :=
  let selected_text := dropdown_text st in
  if falsy selected_text || String.eqb selected_text collection_placeholder
  then None
  else
    match select_by_title selected_text 0 (all_collection_titles st)
                          (collections_data st) with
    | Some url => Some url
    | None => select_by_search (lower selected_text) (collections_data st)
    end.

Definition on_collection_selected (st : app) : app :=
  match selected_url st with
  | Some url =>
      App (collections_data st) (all_collection_titles st) (values st)
          (dropdown_text st) false url url
  | None => st
  end.

(** The titles and the collections go together: no title at all, or the
    titles of the collections, one for each. *)
Definition in_step (st : app) : Prop :=
  all_collection_titles st = []
  \/ all_collection_titles st = map display (collections_data st).

End Dropdown.

(** ** The documents and the shop of the examples *)

Module Scenario.

Definition link_url : string := "https://example.com/c/sapphire".
Definition product_url : string := "https://rezagemcollection.ca/products/ring".
Definition product_gid : string := "gid://shopify/Product/1".

Definition heading : string := "<h2>Product Description</h2>".

Definition a_open (href : string) : string := "<a href=" ++ dq ++ href ++ dq ++ ">".

(** A shop serving one product; [accepts] tells whether the admin API
    takes updates. *)
Definition shop_with (description : string) (accepts : bool) : shop :=
  Shop [(product_url, (description, product_gid))]
       "shpat_token" "rezagem" (fun _ _ => accepts) [].

(** A shop whose storefront does not know the product. *)
Definition shop_without : shop :=
  Shop [] "shpat_token" "rezagem" (fun _ _ => true) [].

(** The heading, then two paragraphs, the second with the word. *)
Definition sapphire : string :=
  heading ++ "<p>Hand cut.</p><p>A blue Sapphire stone.</p>".

Definition sapphire_linked : string :=
  heading ++ "<p>Hand cut.</p><p>A blue " ++ a_open link_url
  ++ "Sapphire</a> stone.</p>".

(** No heading with 'Product Description'. *)
Definition no_heading : string :=
  "<h2>Details</h2><p>A blue Sapphire stone.</p>".

Definition two_words : string := heading ++ "<p>Ruby and Topaz</p>".

Definition two_words_linked : string :=
  heading ++ "<p>" ++ a_open link_url ++ "Ruby</a> and "
  ++ a_open link_url ++ "Topaz</a></p>".

(** The same paragraph before the heading and under it. *)
Definition twin : string := "<p>Sapphire</p>" ++ heading ++ "<p>Sapphire</p>".

Definition twin_linked : string :=
  "<p>" ++ a_open link_url ++ "Sapphire</a></p>" ++ heading ++ "<p>Sapphire</p>".

Definition twin_linked_twice : string :=
  "<p>" ++ a_open link_url ++ "Sapphire</a></p>" ++ heading
  ++ "<p>" ++ a_open link_url ++ "Sapphire</a></p>".

(** The word inside a link to another page, then once more in the
    open. *)
Definition anchored_p : string :=
  "<p>" ++ a_open "/pages/gems" ++ "Sapphire</a> and Sapphire</p>".

Definition anchored : string := heading ++ anchored_p.

(** The paragraphs of [sapphire] and of [anchored], as parsed. *)
Definition sapphire_node : node :=
  Tag "p" [] [NavigableString "A blue Sapphire stone."].

Definition anchored_node : node :=
  Tag "p" []
      [Tag "a" [("href", "/pages/gems")] [NavigableString "Sapphire"];
       NavigableString " and Sapphire"].

(** The shop of [sapphire] after an update it refused. *)
Definition shop_refused : shop :=
  Shop [(product_url, (sapphire, product_gid))]
       "shpat_token" "rezagem" (fun _ _ => false)
       [(product_gid, sapphire_linked)].

(** The linked paragraph of [sapphire_linked], as parsed. *)
Definition sapphire_linked_node : node :=
  Tag "p" []
      [NavigableString "A blue ";
       Tag "a" [("href", link_url)] [NavigableString "Sapphire"];
       NavigableString " stone."].


(** A paragraph that begins with a link to the target, and what a pass
    with the word a makes of it. *)
Definition ruby_linked : string :=
  heading ++ "<p>" ++ a_open link_url ++ "Ruby</a> data</p>".

Definition ruby_anchor_broken : string :=
  heading ++ "<p><" ++ a_open link_url ++ "a</a> href=" ++ dq ++ link_url
  ++ dq ++ ">Ruby</a> data</p>".


(** A paragraph with the word linked to the target, then one with the
    word in the open. *)
Definition linked_then_plain : string :=
  heading ++ "<p>" ++ a_open link_url ++ "Sapphire</a></p><p>Sapphire</p>".

(** The word inside an anchor written without attributes. *)
Definition bare_anchor : string := heading ++ "<p><a>Sapphire</a></p>".





(** A keyword that ends on a character outside [\w]. *)
Definition graded : string := heading ++ "<p>Graded A+B, never A+ alone.</p>".

Definition graded_linked : string :=
  heading ++ "<p>Graded " ++ a_open link_url ++ "A+</a>B, never A+ alone.</p>".

End Scenario.

(** ** Documents of text and links *)

Module Markup.
Import HtmlParser.













(** A paragraph of text and links: the text it begins with, then each
    linked word with the text after it. *)
Definition rich : Type := (string * list (string * string))%type.



(** Its markup, with the links going to [u]. *)
Fixpoint anchors_markup (u : string) (gs : list (string * string)) : string :=
  match gs with
  | [] => EmptyString
  | gt :: rest => anchor u (fst gt) ++ snd gt ++ anchors_markup u rest
  end.


Definition rich_paragraph (u : string) (p : rich) : string :=
  "<p>" ++ fst p ++ anchors_markup u (snd p) ++ "</p>".

Fixpoint rich_paragraphs (u : string) (ps : list rich) : string :=
  match ps with
  | [] => EmptyString
  | p :: rest => rich_paragraph u p ++ rich_paragraphs u rest
  end.

(** The heading followed by such paragraphs. *)
Definition rich_document (u : string) (ps : list rich) : string :=
  Scenario.heading ++ rich_paragraphs u ps.




















End Markup.

(** ** A collection page, its shop and a dropdown for the examples *)

Module Showcase.

Definition rings_url : string := "https://rezagemcollection.ca/collections/rings".
Definition blue_ring : string := "https://rezagemcollection.ca/products/blue-ring".

Definition link_to (href text : string) : string :=
  "<a href=" ++ dq ++ href ++ dq ++ ">" ++ text ++ "</a>".

(** The page of the collection: the blue ring twice, under two hrefs, a
    link that is no product, and the gold band. *)
Definition rings_page : string :=
  link_to "/products/blue-ring?variant=1" "Blue ring"
  ++ link_to "/collections/rings/products/blue-ring#reviews" "Reviews"
  ++ link_to "/pages/about" "About"
  ++ link_to "/products/gold-band" "Gold band".

(** The JSON of the collection is not served; its page is. *)
Definition web (url : string) : option response :=
  if String.eqb url "https://rezagemcollection.ca/collections/rings.json"
  then Some (Response 404 None EmptyString)
  else if String.eqb url rings_url
       then Some (Response 200 None rings_page)
       else None.


(** The shop of [Scenario.sapphire] without a token. *)
Definition shop_no_token : shop :=
  Shop [(Scenario.product_url, (Scenario.sapphire, Scenario.product_gid))]
       EmptyString "rezagem" (fun _ _ => true) [].

Definition hand_cut_node : node := Tag "p" [] [NavigableString "Hand cut."].

Definition rings : Dropdown.collection :=
  Dropdown.Collection (Some "Rings") (Some "rings").
Definition gold_rings : Dropdown.collection :=
  Dropdown.Collection (Some "Gold Rings") (Some "gold-rings").
Definition sale : Dropdown.collection :=
  Dropdown.Collection None (Some "sale").

(** The dropdown after a load of three collections, with some text. *)
Definition loaded (text : string) : Dropdown.app :=
  Dropdown.App [rings; gold_rings; sale]
               ["Rings (rings)"; "Gold Rings (gold-rings)"; "Unknown (sale)"]
               ["Rings (rings)"; "Gold Rings (gold-rings)"; "Unknown (sale)"]
               text false EmptyString EmptyString.

End Showcase.

(** * Facts about the string operations *)

Module StrFacts.
Import PyStr.

Lemma append_nil_r (s : string) : s ++ EmptyString = s.
Proof. induction s as [|c s IH]; simpl; [reflexivity | now rewrite IH]. Qed.

Lemma append_assoc (a b c : string) : (a ++ b) ++ c = a ++ (b ++ c).
Proof. induction a as [|x a IH]; simpl; [reflexivity | now rewrite IH]. Qed.

Lemma length_append (a b : string) :
  String.length (a ++ b) = String.length a + String.length b.
Proof. induction a as [|x a IH]; simpl; [reflexivity | now rewrite IH]. Qed.

Lemma slice_to_append (a b : string) : slice_to (String.length a) (a ++ b) = a.
Proof.
  induction a as [|x a IH]; simpl.
  - destruct b; reflexivity.
  - now rewrite IH.
Qed.

Lemma slice_from_append (a b : string) :
  slice_from (String.length a) (a ++ b) = b.
Proof. induction a as [|x a IH]; simpl; [reflexivity | exact IH]. Qed.

Lemma slice_from_add (n k : nat) (s : string) :
  slice_from (n + k) s = slice_from k (slice_from n s).
Proof.
  revert s; induction n as [|n IH]; intros s; simpl.
  - reflexivity.
  - destruct s as [|c t]; simpl.
    + destruct k; reflexivity.
    + apply IH.
Qed.

Lemma slice_split (n : nat) (s : string) : slice_to n s ++ slice_from n s = s.
Proof.
  revert s; induction n as [|n IH]; intros s.
  - destruct s; reflexivity.
  - destruct s as [|c t]; simpl; [reflexivity | now rewrite IH].
Qed.

Lemma startswith_split (pre s : string) :
  startswith pre s = true -> s = pre ++ slice_from (String.length pre) s.
Proof.
  revert s; induction pre as [|a pre IH]; intros s H; simpl in *.
  - reflexivity.
  - destruct s as [|b s]; [discriminate|].
    apply andb_true_iff in H as [Hab Hrest].
    apply Ascii.eqb_eq in Hab; subst b.
    f_equal. now apply IH.
Qed.

Lemma startswith_refl (s : string) : startswith s s = true.
Proof.
  induction s as [|c s IH]; simpl; [reflexivity|].
  now rewrite Ascii.eqb_refl, IH.
Qed.

(** Where [find] points, the needle is. *)
Lemma find_split (sub s : string) (i : nat) :
  find sub s = Some i ->
  s = slice_to i s ++ sub ++ slice_from (i + String.length sub) s.
Proof.
  revert i; induction s as [|c t IH]; intros i H; simpl in H.
  - destruct (startswith sub EmptyString) eqn:E; [|discriminate].
    injection H as <-. simpl. now apply startswith_split.
  - destruct (startswith sub (String c t)) eqn:E.
    + injection H as <-. simpl slice_to. simpl plus.
      now apply startswith_split.
    + destruct (find sub t) as [j|] eqn:F; [|discriminate].
      injection H as <-. simpl. f_equal. now apply IH.
Qed.

Lemma find_refl (s : string) : find s s = Some 0.
Proof. destruct s; simpl; [reflexivity|]. now rewrite Ascii.eqb_refl, startswith_refl. Qed.

Lemma contains_refl (s : string) : contains s s = true.
Proof. unfold contains. now rewrite find_refl. Qed.

Lemma contains_eqb (a b : string) : String.eqb a b = true -> contains b a = true.
Proof. intros H. apply String.eqb_eq in H. subst. apply contains_refl. Qed.

(** [s.replace(old, new, 1)] either leaves [s] alone or swaps one
    occurrence of [old]. *)
Lemma replace1_cases (s old new : string) :
  replace1 s old new = s \/
  exists pre post, s = pre ++ old ++ post /\ replace1 s old new = pre ++ new ++ post.
Proof.
  unfold replace1. destruct (find old s) as [i|] eqn:F.
  - right. exists (slice_to i s), (slice_from (i + String.length old) s).
    split; [now apply find_split | reflexivity].
  - now left.
Qed.

Lemma neqb_false (a b : string) : neqb a b = false -> a = b.
Proof.
  unfold neqb. intros H. apply negb_false_iff in H. now apply String.eqb_eq.
Qed.

Lemma neqb_refl (a : string) : neqb a a = false.
Proof. unfold neqb. now rewrite String.eqb_refl. Qed.

End StrFacts.

(** * Facts about the pattern *)

Module ReFacts.
Import PyStr Re StrFacts.

Lemma eq_ci_lower (a b : ascii) : eq_ci a b = true -> lower_char b = lower_char a.
Proof. unfold eq_ci. intros H. apply Ascii.eqb_eq in H. now symmetry. Qed.

Lemma match_literal_split (word : string) :
  forall prev s n,
    match_literal word prev s = Some n ->
    exists g a,
      s = g ++ a /\ String.length g = n /\ slice_to n s = g /\
      lower g = lower word /\
      boundary (last_char prev g) (head a) = true.
Proof.
  induction word as [|w word IH]; intros prev s n H; simpl in H.
  - destruct (boundary prev (head s)) eqn:B; [|discriminate].
    injection H as <-. exists EmptyString, s. simpl.
    repeat split; try assumption; destruct s; reflexivity.
  - destruct s as [|c s]; [discriminate|].
    destruct (eq_ci w c) eqn:E; [|discriminate].
    destruct (match_literal word (Some c) s) as [k|] eqn:M; [|discriminate].
    injection H as <-.
    destruct (IH _ _ _ M) as (g & a & Hs & Hl & Hsl & Hlow & Hb).
    exists (String c g), a. simpl.
    rewrite Hl, Hsl, Hlow, (eq_ci_lower _ _ E), <- Hs.
    repeat split; assumption.
Qed.

(** What a match object of [search_from] says about the subject. *)
Lemma search_from_split (word : string) :
  forall s pos prev m,
    search_from word pos prev s = Some m ->
    exists b g a,
      s = b ++ g ++ a /\
      m_start m = pos + String.length b /\
      m_end m = pos + String.length b + String.length g /\
      m_group m = g /\
      lower g = lower word /\
      boundary (last_char prev b) (head (g ++ a)) = true /\
      boundary (last_char (last_char prev b) g) (head a) = true.
Proof.
  induction s as [|c t IH]; intros pos prev m H; simpl in H.
  - destruct (match_at word prev EmptyString) as [n|] eqn:M; [|discriminate].
    injection H as <-. unfold match_at in M.
    destruct (boundary prev (head EmptyString)) eqn:B; [|discriminate].
    destruct (match_literal_split _ _ _ _ M) as (g & a & Hs & Hl & Hsl & Hlow & Hb).
    exists EmptyString, g, a. simpl. rewrite <- Hs, Hl, Hsl, Nat.add_0_r.
    repeat split; assumption.
  - destruct (match_at word prev (String c t)) as [n|] eqn:M.
    + injection H as <-. unfold match_at in M.
      destruct (boundary prev (head (String c t))) eqn:B; [|discriminate].
      destruct (match_literal_split _ _ _ _ M) as (g & a & Hs & Hl & Hsl & Hlow & Hb).
      exists EmptyString, g, a. simpl String.length. simpl last_char.
      cbn [m_start m_end m_group append].
      rewrite <- Hs, Hl, Hsl, Nat.add_0_r.
      repeat split; assumption.
    + destruct (IH _ _ _ H) as (b & g & a & Hs & Hst & Hen & Hg & Hlow & Hb1 & Hb2).
      exists (String c b), g, a. simpl.
      rewrite <- Hs, Hst, Hen.
      repeat split; try assumption; lia.
Qed.

Lemma search_split (word s : string) (m : match_obj) :
  search word s = Some m ->
  exists b g a,
    s = b ++ g ++ a /\
    m_start m = String.length b /\
    m_end m = String.length b + String.length g /\
    m_group m = g /\
    lower g = lower word /\
    boundary (last_char None b) (head (g ++ a)) = true /\
    boundary (last_char (last_char None b) g) (head a) = true.
Proof. intros H. exact (search_from_split _ _ _ _ _ H). Qed.

(** [sub] with [count=1]: the subject with its first match replaced. *)
Lemma sub1_split (word : string) (repl : match_obj -> string) (s : string) (m : match_obj) :
  search word s = Some m ->
  exists b a,
    s = b ++ m_group m ++ a /\
    slice_to (m_start m) s = b /\
    lower (m_group m) = lower word /\
    sub1 word repl s = b ++ repl m ++ a.
Proof.
  intros H. unfold sub1. rewrite H.
  destruct (search_split _ _ _ H) as (b & g & a & Hs & Hst & Hen & Hg & Hlow & _).
  exists b, a. rewrite Hg, Hst, Hen. subst s.
  rewrite slice_to_append, slice_from_add, slice_from_append, slice_from_append.
  repeat split; assumption || reflexivity.
Qed.

End ReFacts.

(** * Facts about the linking pass *)

Section PassFacts.
Import StrFacts ReFacts.

Variable BeautifulSoup : string -> node.

Lemma startswith_append (x b : string) : startswith x (x ++ b) = true.
Proof.
  induction x as [|c x IH]; simpl; [reflexivity|].
  now rewrite Ascii.eqb_refl, IH.
Qed.

Lemma contains_append (a x b : string) : contains x (a ++ x ++ b) = true.
Proof.
  unfold contains.
  assert (H : exists i, find x (a ++ x ++ b) = Some i).
  { induction a as [|c a [i IH]]; simpl.
    - exists 0. destruct (x ++ b) eqn:E; simpl;
        rewrite <- ?E; now rewrite startswith_append.
    - destruct (startswith x (String c (a ++ x ++ b))).
      + now exists 0.
      + rewrite IH. now exists (S i). }
  destruct H as [i ->]. reflexivity.
Qed.

Lemma replace_inside (p_html link_url : string) (m : match_obj) :
  inside_anchor (slice_to (m_start m) p_html) = true ->
  replace p_html link_url m = m_group m.
Proof. unfold replace, inside_anchor. now intros ->. Qed.

Lemma replace_outside (p_html link_url : string) (m : match_obj) :
  inside_anchor (slice_to (m_start m) p_html) = false ->
  replace p_html link_url m = anchor link_url (m_group m).
Proof. unfold replace, inside_anchor. now intros ->. Qed.

(** Without a candidate the markup of the paragraph comes back as it
    was. *)
Lemma sub1_no_candidate (p_html word link_url : string) :
  candidate p_html word = None ->
  sub1 word (replace p_html link_url) p_html = p_html.
Proof.
  unfold candidate. destruct (search word p_html) as [m|] eqn:S.
  - destruct (inside_anchor _) eqn:I; [|discriminate]. intros _.
    destruct (sub1_split word (replace p_html link_url) _ _ S)
      as (b & a & Hs & _ & _ & ->).
    rewrite (replace_inside _ _ _ I). now symmetry.
  - intros _. unfold sub1. now rewrite S.
Qed.

(** With a candidate exactly that occurrence is wrapped. *)
Lemma sub1_candidate (p_html word link_url : string) (m : match_obj) :
  candidate p_html word = Some m ->
  exists b a,
    p_html = b ++ m_group m ++ a /\
    lower (m_group m) = lower word /\
    sub1 word (replace p_html link_url) p_html
    = b ++ anchor link_url (m_group m) ++ a.
Proof.
  unfold candidate. destruct (search word p_html) as [m'|] eqn:S; [|discriminate].
  destruct (inside_anchor _) eqn:I; [discriminate|]. intros [= <-].
  destruct (sub1_split word (replace p_html link_url) _ _ S)
    as (b & a & Hs & _ & Hlow & Hsub).
  exists b, a. rewrite Hsub, (replace_outside _ _ _ I). auto.
Qed.

Lemma anchor_longer (link_url g : string) :
  String.length g < String.length (anchor link_url g).
Proof.
  unfold anchor. rewrite !length_append. simpl. lia.
Qed.

(** The test [new_p_html != p_html and link_url in new_p_html] holds
    exactly when the paragraph has a candidate. *)
Lemma changed_iff_candidate (p_html word link_url : string) :
  let new_p_html := sub1 word (replace p_html link_url) p_html in
  neqb new_p_html p_html && contains link_url new_p_html
  = match candidate p_html word with Some _ => true | None => false end.
Proof.
  cbv zeta. destruct (candidate p_html word) as [m|] eqn:C.
  - destruct (sub1_candidate _ _ link_url _ C) as (b & a & Hs & _ & ->).
    apply andb_true_iff. split.
    + unfold neqb. apply negb_true_iff, String.eqb_neq. intros E.
      apply (f_equal String.length) in E. rewrite Hs in E.
      rewrite !length_append in E.
      pose proof (anchor_longer link_url (m_group m)). lia.
    + unfold anchor. rewrite <- !append_assoc.
      rewrite (append_assoc (b ++ "<a href=") dq).
      rewrite !append_assoc.
      change ("<a href=" ++ dq ++ link_url ++ dq ++ ">" ++ m_group m ++ "</a>" ++ a)
        with (("<a href=" ++ dq) ++ link_url ++ dq ++ ">" ++ m_group m ++ "</a>" ++ a).
      rewrite <- (append_assoc b). apply contains_append.
  - rewrite (sub1_no_candidate _ _ _ C), neqb_refl. reflexivity.
Qed.

(** One step of the loop over the paragraphs. *)
Lemma link_paragraphs_cons (html word link_url : string) (p : node)
      (rest : list node) :
  link_paragraphs html word link_url (p :: rest)
  = if negb (contains (lower word) (lower (get_text p)))
    then link_paragraphs html word link_url rest
    else if has_link p word link_url then html
    else match candidate (str p) word with
         | Some _ =>
             replace1 html (str p)
                      (sub1 word (replace (str p) link_url) (str p))
         | None => link_paragraphs html word link_url rest
         end.
Proof.
  simpl. destruct (negb _); [reflexivity|].
  destruct (has_link _ _ _); [reflexivity|].
  rewrite changed_iff_candidate. now destruct (candidate _ _).
Qed.

Lemma link_paragraphs_shape (html word link_url : string) (ps : list node) :
  link_paragraphs html word link_url ps = html \/
  one_anchor_added html word link_url (link_paragraphs html word link_url ps).
Proof.
  induction ps as [|p rest IH]; [now left|].
  rewrite link_paragraphs_cons.
  destruct (negb _); [exact IH|].
  destruct (has_link _ _ _); [now left|].
  destruct (candidate (str p) word) as [m|] eqn:C; [|exact IH].
  destruct (sub1_candidate _ _ link_url _ C) as (b & a & Hp & Hlow & ->).
  destruct (replace1_cases html (str p) (b ++ anchor link_url (m_group m) ++ a))
    as [E | (pre & post & Hh & ->)]; [now left|].
  right. exists (pre ++ b), (m_group m), (a ++ post).
  rewrite Hh, Hp, !append_assoc. auto.
Qed.

Lemma add_link_scoped (html word link_url : string) :
  add_link_to_word BeautifulSoup html word link_url
  = if falsy html then html
    else link_paragraphs html word link_url (scoped_block BeautifulSoup html).
Proof.
  unfold add_link_to_word, scoped_block.
  destruct (falsy html); [reflexivity|].
  now destruct (find_heading (BeautifulSoup html)).
Qed.

Lemma add_link_shape (html word link_url : string) :
  add_link_to_word BeautifulSoup html word link_url = html \/
  one_anchor_added html word link_url (add_link_to_word BeautifulSoup html word link_url).
Proof.
  rewrite add_link_scoped. destruct (falsy html); [now left|].
  apply link_paragraphs_shape.
Qed.

Lemma link_paragraphs_passed_over (html word link_url : string)
      (before rest : list node) :
  (forall q, In q before -> passed_over q word link_url = true) ->
  link_paragraphs html word link_url (before ++ rest)%list
  = link_paragraphs html word link_url rest.
Proof.
  induction before as [|q before IH]; intros H; [reflexivity|].
  change ((q :: before) ++ rest)%list with (q :: (before ++ rest))%list.
  rewrite link_paragraphs_cons.
  assert (IH' : link_paragraphs html word link_url (before ++ rest)%list
                = link_paragraphs html word link_url rest)
    by (apply IH; intros q' Hin; apply H; now right).
  pose proof (H q (in_eq q before)) as Hq. unfold passed_over in Hq.
  destruct (negb (contains (lower word) (lower (get_text q)))); [exact IH'|].
  simpl in Hq. apply andb_true_iff in Hq as [Hl Hc].
  apply negb_true_iff in Hl. rewrite Hl.
  now destruct (candidate (str q) word).
Qed.

Lemma link_paragraphs_no_candidate (html word link_url : string) (ps : list node) :
  (forall p, In p ps -> candidate (str p) word = None) ->
  link_paragraphs html word link_url ps = html.
Proof.
  induction ps as [|p rest IH]; intros H; [reflexivity|].
  rewrite link_paragraphs_cons, (H p (in_eq p rest)).
  assert (IH' : link_paragraphs html word link_url rest = html)
    by (apply IH; intros p' Hin; apply H; now right).
  destruct (negb _); [exact IH'|].
  now destruct (has_link _ _ _).
Qed.

End PassFacts.

(** * Facts about one product and the run *)

Section ProductFacts.
Import StrFacts ReFacts.

Variable BeautifulSoup : string -> node.

Lemma process_product_eq (sh : shop) (product_url : string)
      (words : list string) (link_url description product_gid : string) :
  get_product_description sh product_url = (description, product_gid) ->
  process_product BeautifulSoup sh product_url words link_url
  = if falsy description then (error "No description", sh)
    else
      match check_already_linked BeautifulSoup description words link_url with
      | Some word => (already_linked word, sh)
      | None =>
          let (updated_html, linked_count) :=
            add_links BeautifulSoup description words link_url in
          if Nat.eqb linked_count 0 then (no_match, sh)
          else
            if negb (falsy product_gid) && negb (falsy (shopify_token sh))
            then let (updated, sh') :=
                   update_product sh product_gid updated_html in
                 (success linked_count updated, sh')
            else (success linked_count false, sh)
      end.
Proof. intros H. unfold process_product. now rewrite H. Qed.

(** The loop over the words, seen from its first word. *)
Lemma add_links_from (words : list string) (link_url : string) :
  forall html k,
    fold_left
      (fun (acc : string * nat) word =>
         let (updated_html, linked_count) := acc in
         let new_html := add_link_to_word BeautifulSoup updated_html word link_url in
         if neqb new_html updated_html
         then (new_html, S linked_count)
         else (updated_html, linked_count))
      words (html, k)
    = (fst (add_links BeautifulSoup html words link_url),
       k + snd (add_links BeautifulSoup html words link_url)).
Proof.
  unfold add_links.
  induction words as [|w ws IH]; intros html k; simpl.
  - now rewrite Nat.add_0_r.
  - destruct (neqb _ _).
    + rewrite (IH _ (S k)), (IH _ 1). simpl. f_equal. lia.
    + rewrite (IH _ k), (IH _ 0). reflexivity.
Qed.


Lemma add_links_cons (html word link_url : string) (words : list string) :
  add_links BeautifulSoup html (word :: words) link_url
  = let new_html := add_link_to_word BeautifulSoup html word link_url in
    let rest := add_links BeautifulSoup new_html words link_url in
    (fst rest, if neqb new_html html then S (snd rest) else snd rest).
Proof.
  cbv zeta. unfold add_links at 1. simpl.
  destruct (neqb _ html) eqn:E.
  - rewrite add_links_from. reflexivity.
  - rewrite add_links_from. apply neqb_false in E. now rewrite E.
Qed.

Lemma add_links_no_heading (html link_url : string) (words : list string) :
  find_heading (BeautifulSoup html) = None ->
  add_links BeautifulSoup html words link_url = (html, 0).
Proof.
  intros H. induction words as [|w ws IH]; [reflexivity|].
  rewrite add_links_cons. cbv zeta.
  assert (E : add_link_to_word BeautifulSoup html w link_url = html).
  { unfold add_link_to_word. rewrite H. now destruct (falsy html). }
  now rewrite E, neqb_refl, IH.
Qed.












Lemma tally_counts (r : result) (c : results) :
  n_success (tally r c) = n_success c + (if is_success r then 1 else 0)
  /\ n_error (tally r c) = n_error c + (if is_error r then 1 else 0).
Proof. destruct r; simpl; lia. Qed.

Lemma run_counts (words : list string) (link_url : string) :
  forall products sh c c' sh' rs,
    run BeautifulSoup sh products words link_url c = (c', sh', rs) ->
    List.length rs = List.length products
    /\ n_success c' = n_success c + List.length (filter is_success rs)
    /\ n_error c' = n_error c + List.length (filter is_error rs).
Proof.
  induction products as [|p ps IH]; intros sh c c' sh' rs H; simpl in H.
  - injection H as <- <- <-. simpl. lia.
  - destruct (process_product BeautifulSoup sh p words link_url) as [r sh1].
    destruct (run BeautifulSoup sh1 ps words link_url (tally r c))
      as [[c2 sh2] rs2] eqn:R.
    injection H as <- <- <-.
    destruct (IH _ _ _ _ _ R) as (Hl & Hs & He).
    destruct (tally_counts r c) as [Ts Te].
    simpl. rewrite Hl, Hs, He, Ts, Te.
    destruct r; simpl; lia.
Qed.

End ProductFacts.

(** * Facts about whole-word matching *)

Module WordFacts.
Import PyStr Re StrFacts ReFacts.

Lemma is_word_char_lower (c : ascii) :
  is_word_char (lower_char c) = is_word_char c.
Proof.
  destruct c as [[] [] [] [] [] [] [] []]; reflexivity.
Qed.

Lemma is_word_same_lower (a b : ascii) :
  lower_char a = lower_char b -> is_word_char a = is_word_char b.
Proof.
  intros H. rewrite <- (is_word_char_lower a), <- (is_word_char_lower b).
  now rewrite H.
Qed.

Lemma is_alnum_word (c : ascii) : is_alnum c = true -> is_word_char c = true.
Proof. unfold is_word_char. now intros ->. Qed.

Lemma head_same_lower (g word : string) :
  lower g = lower word -> is_word (head g) = is_word (head word).
Proof.
  destruct g, word; simpl; try discriminate; [reflexivity|].
  intros [= H _]. now apply is_word_same_lower.
Qed.

Lemma last_same_lower (g : string) :
  forall word p p',
    lower g = lower word ->
    is_word p = is_word p' ->
    is_word (last_char p g) = is_word (last_char p' word).
Proof.
  induction g as [|c g IH]; intros [|w word] p p' H Hp; simpl in *;
    try discriminate; [exact Hp|].
  injection H as Hc Hrest. apply IH; [exact Hrest|].
  simpl. now apply is_word_same_lower.
Qed.

Lemma head_append (g a : string) :
  g <> EmptyString -> head (g ++ a) = head g.
Proof. destruct g; [contradiction | reflexivity]. Qed.

Lemma get_after (b a : string) : String.get (String.length b) (b ++ a) = head a.
Proof.
  induction b as [|c b IH]; simpl; [now destruct a | exact IH].
Qed.

Lemma get_last (b : string) :
  forall c0 r, String.get (String.length b) (String c0 b ++ r) = last_char (Some c0) b.
Proof.
  induction b as [|c b IH]; intros c0 r; simpl; [reflexivity|].
  apply (IH c r).
Qed.

Lemma get_before (b r : string) (p : option ascii) :
  0 < String.length b ->
  String.get (String.length b - 1) (b ++ r) = last_char p b.
Proof.
  destruct b as [|c0 b]; simpl; [lia|]. intros _.
  rewrite Nat.sub_0_r. apply (get_last b c0 r).
Qed.

Lemma last_char_nonempty (g : string) (p p' : option ascii) :
  g <> EmptyString -> last_char p g = last_char p' g.
Proof. destruct g; [contradiction | reflexivity]. Qed.

End WordFacts.


(** * The properties of the pass *)

Section Properties.
Import StrFacts ReFacts WordFacts.

Variable BeautifulSoup : string -> node.

(** C9. One call of [add_link_to_word] adds at most one anchor: what it
    returns is the document itself or the document with one occurrence of
    the word put inside one anchor. The first paragraph with a candidate,
    after paragraphs the loop passes over, ends the loop with that one
    occurrence wrapped, whatever paragraphs follow it. When no paragraph
    of the scope region has a candidate the document comes back
    unchanged. *)
Theorem add_link_to_word_single_insertion (html word link_url : string) :
  (add_link_to_word BeautifulSoup html word link_url = html \/
   one_anchor_added html word link_url
     (add_link_to_word BeautifulSoup html word link_url))
  /\ (forall before p rest m,
         (forall q, In q before -> passed_over q word link_url = true) ->
         contains (lower word) (lower (get_text p)) = true ->
         has_link p word link_url = false ->
         candidate (str p) word = Some m ->
         link_paragraphs html word link_url (before ++ p :: rest)%list
         = replace1 html (str p)
             (slice_to (m_start m) (str p)
              ++ anchor link_url (m_group m)
              ++ slice_from (m_end m) (str p)))
  /\ ((forall p, In p (scoped_block BeautifulSoup html) ->
                 candidate (str p) word = None) ->
      add_link_to_word BeautifulSoup html word link_url = html).
Proof.
  split; [apply add_link_shape|]. split.
  - intros before p rest m Hb Ht Hl Hc.
    rewrite (link_paragraphs_passed_over _ _ _ _ _ Hb).
    rewrite link_paragraphs_cons, Ht, Hl, Hc. simpl. f_equal.
    unfold candidate in Hc.
    destruct (search word (str p)) as [m'|] eqn:S; [|discriminate].
    destruct (inside_anchor _) eqn:I; [discriminate|].
    injection Hc as ->. unfold sub1. rewrite S.
    now rewrite (replace_outside _ _ _ I).
  - intros H. rewrite add_link_scoped.
    destruct (falsy html); [reflexivity|].
    now apply link_paragraphs_no_candidate.
Qed.

(** C6, as amended. Only the first match of the pattern in a
    paragraph's markup is looked at. When the markup before it has more
    occurrences of ['<a '] than of ['</a>'], the test of the code for
    being inside an anchor, the match is not wrapped and the markup of the
    paragraph stays as it was. The loop then goes on with the next
    paragraph, unless the paragraph has the word in its text and already
    a link to the target around the word: then the call ends with the
    document unchanged. *)
Theorem anchored_first_match_skips_paragraph
        (html word link_url : string) (p : node) (rest : list node)
        (m : match_obj) :
  search word (str p) = Some m ->
  inside_anchor (slice_to (m_start m) (str p)) = true ->
  sub1 word (replace (str p) link_url) (str p) = str p
  /\ link_paragraphs html word link_url (p :: rest)
     = (if contains (lower word) (lower (get_text p))
           && has_link p word link_url
        then html
        else link_paragraphs html word link_url rest).
Proof.
  intros S I.
  assert (C : candidate (str p) word = None)
    by (unfold candidate; now rewrite S, I).
  split; [now apply sub1_no_candidate|].
  rewrite link_paragraphs_cons, C.
  destruct (contains (lower word) (lower (get_text p))); simpl; [|reflexivity].
  now destruct (has_link p word link_url).
Qed.

(** C8, as amended. For a keyword that begins and ends with a word
    character (a letter, a digit or the underscore), a match of the
    pattern is the keyword up to case, and the characters right before
    and right after it in the subject, when there are any, are not
    alphanumeric. *)
Theorem whole_word_match (word s : string) (m : match_obj) :
  is_word (head word) = true ->
  is_word (last_char None word) = true ->
  search word s = Some m ->
  lower (m_group m) = lower word
  /\ m_group m = slice (m_start m) (m_end m) s
  /\ (forall c, 0 < m_start m ->
                String.get (m_start m - 1) s = Some c -> is_alnum c = false)
  /\ (forall c, String.get (m_end m) s = Some c -> is_alnum c = false).
Proof.
  intros Hh Ht S.
  destruct (search_split _ _ _ S)
    as (b & g & a & Hs & Hst & Hen & Hg & Hlow & Hb1 & Hb2).
  assert (Hgh : is_word (head g) = true)
    by now rewrite (head_same_lower _ _ Hlow).
  assert (Hgne : g <> EmptyString) by (intros ->; discriminate).
  assert (Hgl : forall p, is_word (last_char p g) = true).
  { intros p. rewrite (last_char_nonempty g p None Hgne).
    now rewrite (last_same_lower g word None None Hlow eq_refl). }
  rewrite (head_append _ _ Hgne) in Hb1.
  unfold boundary in Hb1, Hb2. rewrite Hgh in Hb1. rewrite Hgl in Hb2.
  split; [now rewrite Hg|]. split.
  - unfold slice. rewrite Hg, Hst, Hen, Hs.
    replace (String.length b + String.length g - String.length b)
      with (String.length g) by lia.
    now rewrite slice_from_append, slice_to_append.
  - split.
    + intros c Hpos Hc. rewrite Hst in Hpos, Hc. rewrite Hs in Hc.
      rewrite (get_before b (g ++ a) None Hpos) in Hc.
      rewrite Hc in Hb1. simpl in Hb1.
      destruct (is_alnum c) eqn:A; [|reflexivity].
      now rewrite (is_alnum_word _ A) in Hb1.
    + intros c Hc. rewrite Hen, Hs, <- append_assoc in Hc.
      rewrite <- length_append, get_after in Hc.
      rewrite Hc in Hb2. simpl in Hb2.
      destruct (is_alnum c) eqn:A; [|reflexivity].
      now rewrite (is_alnum_word _ A) in Hb2.
Qed.

(** C10. An empty document comes back from [add_link_to_word] as it is;
    and when the description fetched for a product is empty or missing,
    [process_product] answers the error 'No description' at once, whatever
    the words and the link, and leaves the shop, its update calls
    included, untouched. *)
Theorem empty_description_is_an_error
        (sh : shop) (product_url : string) (words : list string)
        (link_url : string) :
  (forall word,
      add_link_to_word BeautifulSoup EmptyString word link_url = EmptyString)
  /\ (fst (get_product_description sh product_url) = EmptyString ->
      process_product BeautifulSoup sh product_url words link_url
      = (error "No description", sh)).
Proof.
  split; [reflexivity|].
  destruct (get_product_description sh product_url) as [d gid] eqn:G.
  simpl. intros ->. now rewrite (process_product_eq _ _ _ _ _ _ _ G).
Qed.

(** C2, as amended. For a document that is not empty and in which no
    [h2] has 'Product Description' in its text, [process_product] ends
    with [no_match], and the shop is left as it was. *)
Theorem no_heading_is_no_match
        (sh : shop) (product_url : string) (words : list string)
        (link_url description product_gid : string) :
  get_product_description sh product_url = (description, product_gid) ->
  falsy description = false ->
  find_heading (BeautifulSoup description) = None ->
  process_product BeautifulSoup sh product_url words link_url = (no_match, sh).
Proof.
  intros G Hd Hh. rewrite (process_product_eq _ _ _ _ _ _ _ G), Hd.
  assert (C : check_already_linked BeautifulSoup description words link_url = None).
  { unfold check_already_linked.
    induction words as [|w ws IH]; [reflexivity|]. simpl.
    unfold is_already_linked at 1. now rewrite Hh. }
  now rewrite C, (add_links_no_heading _ _ _ _ Hh).
Qed.

(** C3, as amended. The second loop of [process_product] tries every
    word of the list in order, each on the document as the words before it
    left it, and counts the words whose insertion changed the document,
    never more than the list is long; a change does not end the loop, the
    words after it are tried on the changed document. So with two words,
    when the insertion of the first changes the document and the
    insertion of the second changes what the first left, both are linked
    in the one pass and the count is 2. *)
Theorem add_links_tries_every_word
        (html word link_url : string) (words : list string) :
  add_links BeautifulSoup html [] link_url = (html, 0)
  /\ add_links BeautifulSoup html (word :: words) link_url
     = (let new_html := add_link_to_word BeautifulSoup html word link_url in
        let rest := add_links BeautifulSoup new_html words link_url in
        (fst rest, if neqb new_html html then S (snd rest) else snd rest))
  /\ snd (add_links BeautifulSoup html words link_url) <= List.length words
  /\ (forall second,
         neqb (add_link_to_word BeautifulSoup html word link_url) html = true ->
         neqb (add_link_to_word
                 BeautifulSoup
                 (add_link_to_word BeautifulSoup html word link_url)
                 second link_url)
              (add_link_to_word BeautifulSoup html word link_url) = true ->
         add_links BeautifulSoup html [word; second] link_url
         = (add_link_to_word
              BeautifulSoup
              (add_link_to_word BeautifulSoup html word link_url)
              second link_url, 2)).
Proof.
  split; [reflexivity|]. split; [apply add_links_cons|]. split.
  - revert html. induction words as [|w ws IH]; intros html; [simpl; lia|].
    rewrite add_links_cons. cbv zeta. simpl.
    specialize (IH (add_link_to_word BeautifulSoup html w link_url)).
    destruct (neqb _ _); lia.
  - intros second H1 H2.
    rewrite add_links_cons. cbv zeta. rewrite H1.
    rewrite add_links_cons. cbv zeta. rewrite H2. reflexivity.
Qed.

(** C4, as amended. When the words were linked in a document and the
    update of the shop fails, [process_product] still answers [success],
    with [updated] false; the run counts every [success] answer as a
    success and none as an error, whatever its [updated], and answers for
    every product of the list. *)
Theorem failed_update_counts_as_success
        (sh : shop) (product_url : string) (words products : list string)
        (link_url description product_gid updated_html : string) (n : nat)
        (c c' : results) (sh' : shop) (rs : list result) :
  (get_product_description sh product_url = (description, product_gid) ->
   falsy description = false ->
   check_already_linked BeautifulSoup description words link_url = None ->
   add_links BeautifulSoup description words link_url = (updated_html, S n) ->
   fst (update_product sh product_gid updated_html) = false ->
   fst (process_product BeautifulSoup sh product_url words link_url)
   = success (S n) false)
  /\ (run BeautifulSoup sh products words link_url c = (c', sh', rs) ->
      List.length rs = List.length products
      /\ n_success c' = n_success c + List.length (filter is_success rs)
      /\ n_error c' = n_error c + List.length (filter is_error rs)).
Proof.
  split; [|apply run_counts].
  intros G Hd C A Hu.
  rewrite (process_product_eq _ _ _ _ _ _ _ G), Hd, C, A. simpl.
  destruct (negb (falsy product_gid) && negb (falsy (shopify_token sh)));
    [|reflexivity].
  destruct (update_product sh product_gid updated_html) as [u sh1].
  simpl in Hu. now subst u.
Qed.


End Properties.

(** * Documents of text and links: what the parser reads of them and
    what a pass leaves *)

Module MarkupFacts.
Import PyStr Re Soup HtmlParser Markup StrFacts ReFacts.

(** *** Strings of characters of one kind *)







(** *** The tokens of the tags and texts *)











(** *** The tree builder *)




(** *** Documents whose paragraphs are flat *)







(** *** Strings read in two ways *)







(** *** The tokens of a rich document *)










(** *** The tree built from them *)










(** *** The scope region and the links of a rich document *)












(** *** What [str] prints of a rich paragraph *)














(** *** Counting the anchor tags before a position *)








(** *** Where a word sits in the markup of a rich paragraph *)












(** *** Where a paragraph sits in a rich document *)











(** *** One insertion on a rich document, and a pass *)












(** *** The shop after a pass *)

Section Passes.
Variable BeautifulSoup : string -> node.



End Passes.

End MarkupFacts.

(** * The properties on the documents of the examples *)

Import HtmlParser Scenario Markup MarkupFacts.


Lemma add_link_to_word_single_insertion_witness :
  link_paragraphs sapphire "Sapphire" link_url
                  ([Tag "p" [] [NavigableString "Hand cut."]]
                   ++ sapphire_node :: [sapphire_node])%list
  = replace1 sapphire (str sapphire_node)
      ("<p>A blue " ++ anchor link_url "Sapphire" ++ " stone.</p>")
  /\ add_link_to_word html_parser sapphire "Topaz" link_url = sapphire.
Proof.
  split.
  - apply (proj1 (proj2 (add_link_to_word_single_insertion
                           html_parser sapphire "Sapphire" link_url))
             [Tag "p" [] [NavigableString "Hand cut."]]
             sapphire_node [sapphire_node] (MatchObj 10 18 "Sapphire")).
    + intros q [<- | []]. vm_compute; reflexivity.
    + vm_compute; reflexivity.
    + vm_compute; reflexivity.
    + vm_compute; reflexivity.
  - apply (proj2 (proj2 (add_link_to_word_single_insertion
                           html_parser sapphire "Topaz" link_url))).
    intros p Hin. vm_compute in Hin.
    destruct Hin as [<- | [<- | []]]; vm_compute; reflexivity.
Defined.

Lemma anchored_first_match_skips_paragraph_witness :
  sub1 "Sapphire" (replace (str anchored_node) link_url) (str anchored_node)
  = str anchored_node
  /\ link_paragraphs anchored "Sapphire" link_url [anchored_node; sapphire_node]
     = (if contains (lower "Sapphire") (lower (get_text anchored_node))
           && has_link anchored_node "Sapphire" link_url
        then anchored
        else link_paragraphs anchored "Sapphire" link_url [sapphire_node]).
Proof.
  assert (S : search "Sapphire" (str anchored_node)
              = Some (MatchObj 25 33 "Sapphire")) by (vm_compute; reflexivity).
  assert (I : inside_anchor (slice_to 25 (str anchored_node)) = true)
    by (vm_compute; reflexivity).
  exact (anchored_first_match_skips_paragraph
           anchored "Sapphire" link_url anchored_node [sapphire_node] _ S I).
Defined.

Lemma whole_word_match_witness :
  lower "Ring" = lower "ring"
  /\ "Ring" = slice 2 6 "A Ring, earrings"
  /\ (forall c, 0 < 2 -> String.get (2 - 1) "A Ring, earrings" = Some c ->
                is_alnum c = false)
  /\ (forall c, String.get 6 "A Ring, earrings" = Some c -> is_alnum c = false).
Proof.
  apply (whole_word_match "ring" "A Ring, earrings" (MatchObj 2 6 "Ring"));
    vm_compute; reflexivity.
Defined.

(** The word ring is found in neither earring nor rings. *)
Example ring_in_no_longer_word :
  search "ring" "earring" = None /\ search "ring" "rings" = None
  /\ search "ring" "An earring and two rings" = None.
Proof. repeat split; vm_compute; reflexivity. Qed.

Lemma empty_description_is_an_error_witness :
  process_product html_parser (shop_with EmptyString true) product_url
                  ["Sapphire"] link_url
  = (error "No description", shop_with EmptyString true)
  /\ process_product html_parser shop_without product_url ["Sapphire"] link_url
     = (error "No description", shop_without).
Proof.
  split.
  - apply (proj2 (empty_description_is_an_error
                    html_parser (shop_with EmptyString true) product_url
                    ["Sapphire"] link_url)).
    reflexivity.
  - apply (proj2 (empty_description_is_an_error
                    html_parser shop_without product_url ["Sapphire"] link_url)).
    reflexivity.
Defined.

Lemma no_heading_is_no_match_witness :
  process_product html_parser (shop_with no_heading true) product_url
                  ["Sapphire"] link_url
  = (no_match, shop_with no_heading true).
Proof.
  apply (no_heading_is_no_match html_parser (shop_with no_heading true)
           product_url ["Sapphire"] link_url no_heading product_gid);
    vm_compute; reflexivity.
Defined.

Lemma failed_update_counts_as_success_witness :
  fst (process_product html_parser (shop_with sapphire false) product_url
                       ["Sapphire"] link_url)
  = success 1 false
  /\ (List.length [success 1 false] = List.length [product_url]
      /\ n_success (Results 1 0 0 0)
         = n_success start_results
           + List.length (filter is_success [success 1 false])
      /\ n_error (Results 1 0 0 0)
         = n_error start_results
           + List.length (filter is_error [success 1 false])).
Proof.
  destruct (failed_update_counts_as_success
              html_parser (shop_with sapphire false) product_url
              ["Sapphire"] [product_url] link_url sapphire product_gid
              sapphire_linked 0 start_results (Results 1 0 0 0)
              shop_refused [success 1 false]) as [H1 H2].
  split.
  - apply H1; vm_compute; reflexivity.
  - apply H2. vm_compute. reflexivity.
Defined.


Lemma add_links_tries_every_word_witness :
  add_links html_parser two_words ["Ruby"; "Topaz"] link_url
  = (add_link_to_word html_parser
       (add_link_to_word html_parser two_words "Ruby" link_url)
       "Topaz" link_url, 2).
Proof.
  apply (proj2 (proj2 (proj2 (add_links_tries_every_word
                                html_parser two_words "Ruby" link_url []))));
    vm_compute; reflexivity.
Defined.



(** The word a is read in the tag name of an anchor written before: the
    anchor around it breaks the start tag of that anchor, and the link of
    the word Ruby is lost. *)
Example anchor_tag_name_linked :
  ruby_linked = rich_document link_url [(EmptyString, [("Ruby", " data")])]
  /\ is_already_linked html_parser ruby_linked "Ruby" link_url = true
  /\ add_link_to_word html_parser ruby_linked "a" link_url = ruby_anchor_broken
  /\ is_already_linked html_parser ruby_anchor_broken "Ruby" link_url = false.
Proof. repeat split; vm_compute; reflexivity. Qed.

(** C2, against the claim as first stated. [no_heading] has no heading
    with 'Product Description', and the pass ends with [no_match], not
    with an error. *)
Lemma no_heading_not_error :
  find_heading (html_parser no_heading) = None
  /\ ~ (exists message,
          fst (process_product html_parser (shop_with no_heading true)
                               product_url ["Sapphire"] link_url)
          = error message).
Proof.
  split; [vm_compute; reflexivity|].
  assert (E : fst (process_product html_parser (shop_with no_heading true)
                                   product_url ["Sapphire"] link_url)
              = no_match) by (vm_compute; reflexivity).
  rewrite E. intros [message H]. discriminate H.
Qed.

(** C3, against the claim as first stated. With the words Ruby and
    Topaz both in the paragraph, the loop links the two of them, where a
    pass stopping at the first change links Ruby alone. *)
Lemma both_words_linked :
  add_links html_parser two_words ["Ruby"; "Topaz"] link_url
  = (two_words_linked, 2)
  /\ InsertionPass_spec html_parser two_words ["Ruby"; "Topaz"] link_url
     = (heading ++ "<p>" ++ a_open link_url ++ "Ruby</a> and Topaz</p>", 1)
  /\ add_links html_parser two_words ["Ruby"; "Topaz"] link_url
     <> InsertionPass_spec html_parser two_words ["Ruby"; "Topaz"] link_url.
Proof.
  assert (A : add_links html_parser two_words ["Ruby"; "Topaz"] link_url
              = (two_words_linked, 2)) by (vm_compute; reflexivity).
  assert (B : InsertionPass_spec html_parser two_words ["Ruby"; "Topaz"] link_url
              = (heading ++ "<p>" ++ a_open link_url ++ "Ruby</a> and Topaz</p>", 1))
    by (vm_compute; reflexivity).
  split; [exact A|]. split; [exact B|].
  rewrite A, B. intros H. discriminate H.
Qed.

(** C4, against the claim as first stated. The shop refuses the update
    of the one product; the run still counts one success and no error. *)
Lemma failed_update_not_downgraded :
  run html_parser (shop_with sapphire false) [product_url] ["Sapphire"]
      link_url start_results
  = (Results 1 0 0 0, shop_refused, [success 1 false])
  /\ storefront shop_refused = storefront (shop_with sapphire false)
  /\ n_error (Results 1 0 0 0) = 0.
Proof. repeat split; vm_compute; reflexivity. Qed.

(** C5. On [twin] the scope region is the one paragraph under the
    heading, and the anchor is written into the equal paragraph before
    the heading; a second call then links the paragraph under the heading
    as well. *)
Theorem twin_paragraph_linked_outside_scope :
  scoped_block html_parser twin = [Tag "p" [] [NavigableString "Sapphire"]]
  /\ add_link_to_word html_parser twin "Sapphire" link_url = twin_linked
  /\ add_link_to_word html_parser twin_linked "Sapphire" link_url
     = twin_linked_twice.
Proof. repeat split; vm_compute; reflexivity. Qed.

(** C6, against the claim as first stated. In [anchored] the first
    match sits inside a link to another page and a second one follows in
    the open, outside every anchor; the paragraph is left as it is and the
    document comes back unchanged. In [linked_then_plain] the first
    paragraph has a link to the target around the word, and the call ends
    there though the next paragraph has the word in the open. In
    [bare_anchor] the word sits inside an anchor written without
    attributes, and is wrapped all the same. *)
Lemma anchored_paragraph_given_up :
  scoped_block html_parser anchored = [anchored_node]
  /\ search "Sapphire" (str anchored_node) = Some (MatchObj 25 33 "Sapphire")
  /\ inside_anchor (slice_to 25 (str anchored_node)) = true
  /\ search "Sapphire" (slice_from 33 (str anchored_node))
     = Some (MatchObj 9 17 "Sapphire")
  /\ inside_anchor (slice_to (33 + 9) (str anchored_node)) = false
  /\ add_link_to_word html_parser anchored "Sapphire" link_url = anchored
  /\ add_link_to_word html_parser linked_then_plain "Sapphire" link_url
     = linked_then_plain
  /\ add_link_to_word html_parser bare_anchor "Sapphire" link_url
     = heading ++ "<p><a>" ++ a_open link_url ++ "Sapphire</a></a></p>".
Proof. repeat split; vm_compute; reflexivity. Qed.


(** C8, against the claim as first stated. The keyword A+ is matched
    right before the letter B, and that occurrence is the one linked. *)
Lemma keyword_matched_next_to_letter :
  search "A+" "Graded A+B, never A+ alone." = Some (MatchObj 7 9 "A+")
  /\ String.get 9 "Graded A+B, never A+ alone." = Some "B"%char
  /\ is_alnum "B" = true
  /\ add_link_to_word html_parser graded "A+" link_url = graded_linked.
Proof. repeat split; vm_compute; reflexivity. Qed.

(** * Facts about [split], [strip] and [endswith] *)

Module SplitFacts.
Import PyStr StrFacts.

Lemma contains_split (sub s : string) :
  contains sub s = true -> exists a b, s = a ++ sub ++ b.
Proof.
  unfold contains. destruct (find sub s) as [i|] eqn:F; [|discriminate].
  intros _. exists (slice_to i s), (slice_from (i + String.length sub) s).
  now apply find_split.
Qed.

Lemma contains_inside (sub a m b : string) :
  contains sub m = true -> contains sub (a ++ m ++ b) = true.
Proof.
  intros H. destruct (contains_split _ _ H) as (x & y & ->).
  rewrite !append_assoc, <- (append_assoc a x).
  apply contains_append.
Qed.

Lemma contains_prefix_false (sub a b : string) :
  contains sub (a ++ b) = false -> contains sub a = false.
Proof.
  intros H. destruct (contains sub a) eqn:E; [|reflexivity].
  pose proof (contains_inside sub EmptyString a b E) as C.
  simpl in C. congruence.
Qed.

Lemma contains_suffix_false (sub a b : string) :
  contains sub (a ++ b) = false -> contains sub b = false.
Proof.
  intros H. destruct (contains sub b) eqn:E; [|reflexivity].
  pose proof (contains_inside sub a b EmptyString E) as C.
  rewrite append_nil_r in C. congruence.
Qed.

Lemma contains_empty (sub : string) :
  sub <> EmptyString -> contains sub EmptyString = false.
Proof. destruct sub; [contradiction | reflexivity]. Qed.

Lemma startswith_slice_to (sub : string) :
  forall n s, startswith sub (slice_to n s) = true -> startswith sub s = true.
Proof.
  induction sub as [|a sub IH]; intros n s H; [reflexivity|].
  destruct n, s; simpl in *; try discriminate.
  apply andb_true_iff in H as [H1 H2].
  rewrite H1. simpl. now apply (IH n).
Qed.

(** Before the place [find] points at there is no occurrence. *)
Lemma find_least (sub : string) :
  sub <> EmptyString ->
  forall s i, find sub s = Some i -> contains sub (slice_to i s) = false.
Proof.
  intros Hne. induction s as [|c t IH]; intros i H.
  - destruct i; simpl; now apply contains_empty.
  - simpl in H. destruct (startswith sub (String c t)) eqn:E.
    + injection H as <-. now apply contains_empty.
    + destruct (find sub t) as [j|] eqn:F; [|discriminate].
      injection H as <-. specialize (IH j eq_refl).
      unfold contains in *. simpl slice_to. simpl find.
      destruct (startswith sub (String c (slice_to j t))) eqn:E2.
      * change (String c (slice_to j t)) with (slice_to (S j) (String c t)) in E2.
        apply startswith_slice_to in E2. congruence.
      * destruct (find sub (slice_to j t)); [discriminate | reflexivity].
  Qed.

Lemma length_slice_from (n : nat) :
  forall s, String.length (slice_from n s) = String.length s - n.
Proof.
  induction n as [|n IH]; intros s; simpl.
  - now rewrite Nat.sub_0_r.
  - destruct s; simpl; [reflexivity | apply IH].
Qed.

Lemma startswith_length (sub s : string) :
  startswith sub s = true -> String.length sub <= String.length s.
Proof.
  intros H. apply startswith_split in H.
  apply (f_equal String.length) in H. rewrite length_append in H. lia.
Qed.

Lemma find_length (sub : string) :
  forall s i, find sub s = Some i -> i + String.length sub <= String.length s.
Proof.
  induction s as [|c t IH]; intros i H; simpl in H.
  - destruct (startswith sub EmptyString) eqn:E; [|discriminate].
    injection H as <-. now apply startswith_length in E.
  - destruct (startswith sub (String c t)) eqn:E.
    + injection H as <-. now apply startswith_length in E.
    + destruct (find sub t) as [j|] eqn:F; [|discriminate].
      injection H as <-. specialize (IH j eq_refl). simpl. lia.
Qed.

Lemma split_fuel_nonempty (fuel : nat) (sep s : string) :
  split_fuel fuel sep s <> [].
Proof. destruct fuel; simpl; [|destruct (find sep s)]; discriminate. Qed.

(** [sep.join(s.split(sep))] is [s]. *)
Lemma join_split_fuel (sep : string) :
  forall fuel s, join sep (split_fuel fuel sep s) = s.
Proof.
  induction fuel as [|f IH]; intros s; [reflexivity|].
  simpl. destruct (find sep s) as [i|] eqn:F; [|reflexivity].
  specialize (IH (slice_from (i + String.length sep) s)).
  unfold join in *. simpl.
  destruct (split_fuel f sep (slice_from (i + String.length sep) s)) eqn:E.
  - now apply split_fuel_nonempty in E.
  - rewrite IH. symmetry. now apply find_split.
Qed.

(** No piece of a split has the separator in it. *)
Lemma split_fuel_pieces (sep : string) :
  sep <> EmptyString ->
  forall fuel s piece,
    String.length s < fuel ->
    In piece (split_fuel fuel sep s) -> contains sep piece = false.
Proof.
  intros Hne. induction fuel as [|f IH]; intros s piece Hf Hin; [lia|].
  simpl in Hin. destruct (find sep s) as [i|] eqn:F.
  - destruct Hin as [<- | Hin]; [now apply find_least|].
    apply (IH (slice_from (i + String.length sep) s)); [|exact Hin].
    rewrite length_slice_from. pose proof (find_length _ _ _ F).
    destruct sep; [contradiction|]. simpl in *. lia.
  - destruct Hin as [<- | []]. unfold contains. now rewrite F.
Qed.

Lemma split_pieces (sep s piece : string) :
  sep <> EmptyString -> In piece (split sep s) -> contains sep piece = false.
Proof. intros Hne. apply split_fuel_pieces; [exact Hne | lia]. Qed.

Lemma split_none (sep s : string) :
  contains sep s = false -> split sep s = [s].
Proof.
  unfold contains, split. simpl.
  now destruct (find sep s).
Qed.

(** The first piece is a prefix of the string, the last a suffix. *)
Lemma split_fuel_hd (sep : string) (fuel : nat) (s : string) :
  exists r, s = hd EmptyString (split_fuel fuel sep s) ++ r.
Proof.
  destruct fuel; simpl.
  - exists EmptyString. now rewrite append_nil_r.
  - destruct (find sep s) as [i|]; simpl.
    + exists (slice_from i s). now rewrite slice_split.
    + exists EmptyString. now rewrite append_nil_r.
Qed.

Lemma split_fuel_last (sep : string) :
  forall fuel s, exists r, s = r ++ last (split_fuel fuel sep s) EmptyString.
Proof.
  induction fuel as [|f IH]; intros s.
  - now exists EmptyString.
  - simpl. destruct (find sep s) as [i|] eqn:F; [|now exists EmptyString].
    destruct (IH (slice_from (i + String.length sep) s)) as [r Hr].
    destruct (split_fuel f sep (slice_from (i + String.length sep) s)) eqn:E;
      [now apply split_fuel_nonempty in E|].
    exists (slice_to i s ++ sep ++ r).
    change (last (slice_to i s :: s0 :: l) EmptyString)
      with (last (s0 :: l) EmptyString).
    rewrite !append_assoc, <- Hr. now apply find_split.
Qed.

Lemma hd_in (l : list string) (d : string) : l <> [] -> In (hd d l) l.
Proof. destruct l; [contradiction | now left]. Qed.

Lemma last_in (l : list string) (d : string) : l <> [] -> In (last l d) l.
Proof.
  induction l as [|x l IH]; [contradiction|]. intros _.
  destruct l as [|y l]; [now left|].
  right. apply IH. discriminate.
Qed.

Lemma hd_split_clean (sep s : string) :
  sep <> EmptyString -> contains sep (hd EmptyString (split sep s)) = false.
Proof.
  intros Hne. apply (split_pieces sep s); [exact Hne|].
  apply hd_in, split_fuel_nonempty.
Qed.

Lemma last_split_clean (sep s : string) :
  sep <> EmptyString -> contains sep (last (split sep s) EmptyString) = false.
Proof.
  intros Hne. apply (split_pieces sep s); [exact Hne|].
  apply last_in, split_fuel_nonempty.
Qed.

(** The first piece of a split keeps what the string did not have. *)
Lemma hd_split_keeps (sub sep s : string) :
  contains sub s = false ->
  contains sub (hd EmptyString (split sep s)) = false.
Proof.
  intros H. destruct (split_fuel_hd sep (S (String.length s)) s) as [r Hr].
  unfold split. rewrite Hr in H. now apply contains_prefix_false in H.
Qed.

End SplitFacts.

Module StripFacts.
Import PyStr StrFacts SplitFacts.

Lemma lstrip_split (s : string) : exists w, s = w ++ lstrip s.
Proof.
  induction s as [|c t [w IH]]; [now exists EmptyString|].
  simpl. destruct (isspace c).
  - exists (String c w). simpl. now rewrite <- IH.
  - now exists EmptyString.
Qed.

Lemma rstrip_split (s : string) : exists w, s = rstrip s ++ w.
Proof.
  induction s as [|c t [w IH]]; [now exists EmptyString|].
  simpl. destruct (rstrip t) as [|d r] eqn:E.
  - destruct (isspace c).
    + exists (String c t). reflexivity.
    + exists t. reflexivity.
  - exists w. simpl in *. now f_equal.
Qed.

(** The stripped string sits inside the string. *)
Lemma strip_inside (s : string) : exists a b, s = a ++ strip s ++ b.
Proof.
  unfold strip. destruct (lstrip_split s) as [a Ha].
  destruct (rstrip_split (lstrip s)) as [b Hb].
  exists a, b. now rewrite <- Hb.
Qed.

Lemma contains_strip_false (sub s : string) :
  contains sub s = false -> contains sub (strip s) = false.
Proof.
  intros H. destruct (strip_inside s) as (a & b & E).
  destruct (contains sub (strip s)) eqn:C; [|reflexivity].
  pose proof (contains_inside sub a (strip s) b C) as C'.
  rewrite <- E in C'. congruence.
Qed.

Lemma lstrip_clean (s : string) : clean_head (lstrip s).
Proof.
  induction s as [|c t IH]; simpl; [exact I|].
  destruct (isspace c) eqn:E; [exact IH | exact E].
Qed.

Lemma lstrip_fixed (s : string) : clean_head s -> lstrip s = s.
Proof. destruct s as [|c t]; simpl; [reflexivity | now intros ->]. Qed.

Lemma rstrip_clean (s : string) : clean_head s -> clean_head (rstrip s).
Proof.
  destruct s as [|c t]; simpl; [exact (fun H => H)|]. intros H.
  destruct (rstrip t); [rewrite H|]; exact H.
Qed.

Lemma rstrip_cons (c : ascii) (t : string) :
  rstrip (String c t)
  = match rstrip t with
    | EmptyString => if isspace c then EmptyString else String c EmptyString
    | r => String c r
    end.
Proof. reflexivity. Qed.

Lemma rstrip_fixed (s : string) : rstrip (rstrip s) = rstrip s.
Proof.
  induction s as [|c t IH]; [reflexivity|]. rewrite rstrip_cons.
  destruct (rstrip t) as [|d r] eqn:E.
  - destruct (isspace c) eqn:Sp; [reflexivity|]. simpl. now rewrite Sp.
  - rewrite rstrip_cons, IH. reflexivity.
Qed.

(** Stripping a stripped string changes nothing. *)
Lemma strip_fixed (s : string) : strip (strip s) = strip s.
Proof.
  unfold strip.
  rewrite (lstrip_fixed (rstrip (lstrip s))).
  - apply rstrip_fixed.
  - apply rstrip_clean, lstrip_clean.
Qed.

Lemma endswith_append (s suffix : string) : endswith suffix (s ++ suffix) = true.
Proof.
  unfold endswith. rewrite length_append.
  replace (String.length s + String.length suffix - String.length suffix)
    with (String.length s) by lia.
  rewrite slice_from_append, String.eqb_refl.
  apply andb_true_iff. split; [|reflexivity]. apply Nat.leb_le. lia.
Qed.

End StripFacts.

(** * Facts about a separator of one character *)

Module CommaFacts.
Import PyStr StrFacts SplitFacts.

Lemma slice_to_append_le (n : nat) :
  forall a t, n <= String.length a -> slice_to n (a ++ t) = slice_to n a.
Proof.
  induction n as [|n IH]; intros a t H.
  - destruct a, t; reflexivity.
  - destruct a as [|x a]; simpl in *; [lia|]. rewrite IH; [reflexivity | lia].
Qed.

Lemma slice_from_append_le (n : nat) :
  forall a t, n <= String.length a -> slice_from n (a ++ t) = slice_from n a ++ t.
Proof.
  induction n as [|n IH]; intros a t H; [reflexivity|].
  destruct a as [|x a]; simpl in *; [lia|]. apply IH. lia.
Qed.

(** Any fuel above the length of the string gives the same pieces. *)
Lemma split_fuel_enough (sep : string) :
  sep <> EmptyString ->
  forall f1 f2 s,
    String.length s < f1 -> String.length s < f2 ->
    split_fuel f1 sep s = split_fuel f2 sep s.
Proof.
  intros Hne. induction f1 as [|f1 IH]; intros f2 s H1 H2; [lia|].
  destruct f2 as [|f2]; [lia|]. simpl.
  destruct (find sep s) as [i|] eqn:F; [|reflexivity].
  f_equal. pose proof (find_length _ _ _ F) as L.
  assert (0 < String.length sep) by (destruct sep; [contradiction | simpl; lia]).
  apply IH; rewrite length_slice_from; lia.
Qed.

Lemma contains_one_cons (c x : ascii) (a : string) :
  contains (String c EmptyString) (String x a) = false ->
  Ascii.eqb c x = false /\ contains (String c EmptyString) a = false.
Proof.
  unfold contains. simpl. destruct (Ascii.eqb c x); simpl; [discriminate|].
  destruct (find (String c EmptyString) a); [discriminate | auto].
Qed.

Lemma find_one_fresh (c : ascii) (b : string) :
  forall a,
    contains (String c EmptyString) a = false ->
    find (String c EmptyString) (a ++ String c b) = Some (String.length a).
Proof.
  induction a as [|x a IH]; intros H.
  - simpl. now rewrite Ascii.eqb_refl.
  - apply contains_one_cons in H as [Hx Ha].
    simpl. rewrite Hx. simpl. now rewrite (IH Ha).
Qed.

Lemma find_one_append (c : ascii) (t : string) :
  forall a i,
    find (String c EmptyString) a = Some i ->
    find (String c EmptyString) (a ++ t) = Some i.
Proof.
  induction a as [|x a IH]; intros i H; simpl in H; [discriminate|].
  simpl. destruct (Ascii.eqb c x); simpl in *; [exact H|].
  destruct (find (String c EmptyString) a) as [j|]; [|discriminate].
  now rewrite (IH j eq_refl).
Qed.

(** Splitting on one character goes through a separator: the pieces of
    the left part, then the pieces of the right part. *)
Lemma split_fuel_one_append (c : ascii) (b : string) :
  forall f a f',
    String.length a < f ->
    String.length (a ++ String c b) < f' ->
    split_fuel f' (String c EmptyString) (a ++ String c b)
    = (split_fuel f (String c EmptyString) a
       ++ split (String c EmptyString) b)%list.
Proof.
  assert (Hne : String c EmptyString <> EmptyString) by discriminate.
  induction f as [|f IH]; intros a f' H1 H2; [lia|].
  destruct f' as [|f']; [lia|]. simpl split_fuel.
  destruct (find (String c EmptyString) a) as [i|] eqn:F.
  - rewrite (find_one_append c _ _ _ F).
    pose proof (find_length _ _ _ F) as L. simpl in L.
    rewrite slice_to_append_le, slice_from_append_le by (simpl; lia).
    simpl. f_equal. rewrite length_append in H2. simpl in H2.
    apply IH.
    + rewrite length_slice_from. simpl. lia.
    + rewrite length_append, length_slice_from. simpl. lia.
  - assert (C : contains (String c EmptyString) a = false)
      by (unfold contains; now rewrite F).
    rewrite (find_one_fresh c b a C).
    rewrite slice_to_append, slice_from_add, slice_from_append.
    simpl. f_equal. rewrite length_append in H2. simpl in H2.
    apply split_fuel_enough; [exact Hne | lia | lia].
Qed.

Lemma split_one_append (c : ascii) (a b : string) :
  split (String c EmptyString) (a ++ String c b)
  = (split (String c EmptyString) a ++ split (String c EmptyString) b)%list.
Proof. unfold split at 1 2. apply split_fuel_one_append; lia. Qed.

Lemma count_one_append (c : ascii) (t : string) :
  forall a,
    count_from 0 (String c EmptyString) (a ++ t)
    = count_from 0 (String c EmptyString) a
      + count_from 0 (String c EmptyString) t.
Proof.
  induction a as [|x a IH]; [reflexivity|].
  simpl. destruct (Ascii.eqb c x); simpl; now rewrite IH.
Qed.

Lemma count_one_none (c : ascii) :
  forall a,
    contains (String c EmptyString) a = false ->
    count_from 0 (String c EmptyString) a = 0.
Proof.
  induction a as [|x a IH]; intros H; [reflexivity|].
  apply contains_one_cons in H as [Hx Ha].
  simpl. rewrite Hx. simpl. now apply IH.
Qed.

(** As many pieces as separators, and one more. *)
Lemma length_split_one (c : ascii) :
  forall f s,
    String.length s < f ->
    List.length (split_fuel f (String c EmptyString) s)
    = S (count_from 0 (String c EmptyString) s).
Proof.
  assert (Hne : String c EmptyString <> EmptyString) by discriminate.
  induction f as [|f IH]; intros s H; [lia|]. simpl.
  destruct (find (String c EmptyString) s) as [i|] eqn:F.
  - pose proof (find_split _ _ _ F) as Hs.
    pose proof (find_length _ _ _ F) as L. simpl in L.
    pose proof (find_least _ Hne _ _ F) as Hp.
    simpl. rewrite IH by (rewrite length_slice_from; simpl; lia).
    f_equal.
    assert (E : count_from 0 (String c EmptyString) s
                = count_from 0 (String c EmptyString)
                    (slice_to i s ++ String c EmptyString
                     ++ slice_from (i + String.length (String c EmptyString)) s))
      by now rewrite <- Hs.
    rewrite E, count_one_append, (count_one_none _ _ Hp).
    simpl. now rewrite Ascii.eqb_refl.
  - simpl. f_equal. symmetry. apply count_one_none.
    unfold contains. now rewrite F.
Qed.

End CommaFacts.

(** * Further properties: the words, the handles and the host *)

Section FurtherStrings.
Import StrFacts SplitFacts StripFacts CommaFacts.

(** X1. The words [start_processing] reads off the keywords field are as
    many as the commas of the field and one more; joining the pieces of
    the field with commas gives the field back; and no word has a comma
    in it or white space at either end. *)
Theorem parse_words_clean (words_str : string) :
  List.length (parse_words words_str) = S (count words_str ",")
  /\ join "," (split "," words_str) = words_str
  /\ forall w, In w (parse_words words_str) ->
               contains "," w = false /\ strip w = w.
Proof.
  unfold parse_words. split; [|split].
  - rewrite length_map. unfold split, count. simpl falsy. cbv iota.
    apply length_split_one. lia.
  - apply join_split_fuel.
  - intros w Hin. apply in_map_iff in Hin as (piece & <- & Hp). split.
    + apply contains_strip_false.
      apply (split_pieces "," words_str); [discriminate | exact Hp].
    + apply strip_fixed.
Qed.

(** X2. The words of a field with a comma in it are the words of what is
    before the comma followed by the words of what is after it; so a
    field ending with a comma has the empty word as its last word. *)
Theorem parse_words_comma (a b : string) :
  parse_words (a ++ "," ++ b) = (parse_words a ++ parse_words b)%list
  /\ parse_words (a ++ ",") = (parse_words a ++ [EmptyString])%list.
Proof.
  unfold parse_words. split.
  - change ("," ++ b) with (String "," b).
    now rewrite split_one_append, map_app.
  - now rewrite (split_one_append "," a EmptyString), map_app.
Qed.

(** X4. The handle [get_collection_products] reads off a collection URL
    has no query string, no fragment and no [/collections/] in it. *)
Theorem collection_handle_clean (collection_url : string) :
  contains "?" (collection_handle collection_url) = false
  /\ contains "#" (collection_handle collection_url) = false
  /\ contains "/collections/" (collection_handle collection_url) = false.
Proof.
  unfold collection_handle. split; [|split].
  - apply hd_split_keeps. apply hd_split_clean. discriminate.
  - apply hd_split_clean. discriminate.
  - apply hd_split_keeps, hd_split_keeps. apply last_split_clean. discriminate.
Qed.

(** [split('/collections/')[-1]] on a URL of the store. *)
Lemma last_split_collections (h : string) :
  contains "/collections/" h = false ->
  last (split "/collections/" ("https://rezagemcollection.ca/collections/" ++ h))
       EmptyString = h.
Proof.
  intros H. unfold split.
  assert (F : find "/collections/" ("https://rezagemcollection.ca/collections/" ++ h)
              = Some 28) by (vm_compute; reflexivity).
  cbn [split_fuel]. rewrite F.
  assert (R : slice_from (28 + String.length "/collections/")
                         ("https://rezagemcollection.ca/collections/" ++ h) = h)
    by reflexivity.
  rewrite R.
  rewrite (split_fuel_enough "/collections/" ltac:(discriminate) _
             (S (String.length h)) h).
  - change (split_fuel (S (String.length h)) "/collections/" h)
      with (split "/collections/" h).
    now rewrite (split_none _ _ H).
  - rewrite length_append. simpl. lia.
  - lia.
Qed.

(** X5. The URL [on_collection_selected] writes for a handle leads
    [get_collection_products] back to that handle, when the handle has no
    [?], no [#] and no [/collections/] in it. *)
Theorem collection_handle_of_url (h : string) :
  contains "/collections/" h = false ->
  contains "?" h = false ->
  contains "#" h = false ->
  collection_handle (Dropdown.collection_url h) = h.
Proof.
  intros Hc Hq Hf. unfold collection_handle, Dropdown.collection_url.
  rewrite (last_split_collections h Hc).
  rewrite (split_none _ _ Hq). cbn [hd].
  now rewrite (split_none _ _ Hf).
Qed.

(** X9. The host [update_product] posts to always ends with
    [.myshopify.com], a store name that already ends so is kept as it
    is, and the host of a host is that host. *)
Theorem shop_domain_myshopify (shopify_store : string) :
  endswith ".myshopify.com" (shop_domain shopify_store) = true
  /\ (endswith ".myshopify.com" shopify_store = true ->
      shop_domain shopify_store = shopify_store)
  /\ shop_domain (shop_domain shopify_store) = shop_domain shopify_store.
Proof.
  unfold shop_domain.
  destruct (endswith ".myshopify.com" shopify_store) eqn:E.
  - rewrite E. auto.
  - rewrite endswith_append. split; [reflexivity|]. split; [discriminate | reflexivity].
Qed.

End FurtherStrings.

(** * Further properties: the products of a collection *)

Section FurtherCollection.
Import StrFacts SplitFacts StripFacts CommaFacts.

Variable BeautifulSoup : string -> node.
Variable requests_get : string -> option response.

Lemma existsb_eqb_false (h : string) (seen : list string) :
  existsb (String.eqb h) seen = false -> ~ In h seen.
Proof.
  intros H Hin.
  assert (E : existsb (String.eqb h) seen = true).
  { apply existsb_exists. exists h. split; [exact Hin | apply String.eqb_refl]. }
  congruence.
Qed.

Lemma product_page_inj (h h' : string) :
  product_page h = product_page h' -> h = h'.
Proof.
  intros H. apply (f_equal (slice_from 38)) in H. exact H.
Qed.

Lemma href_handle_clean (href : string) :
  strip (href_handle href) = href_handle href
  /\ contains "?" (href_handle href) = false
  /\ contains "#" (href_handle href) = false
  /\ contains "/products/" (href_handle href) = false.
Proof.
  unfold href_handle. split; [apply strip_fixed|]. split; [|split].
  - apply contains_strip_false, hd_split_keeps, hd_split_clean. discriminate.
  - apply contains_strip_false, hd_split_clean. discriminate.
  - apply contains_strip_false, hd_split_keeps, hd_split_keeps.
    apply last_split_clean. discriminate.
Qed.

(** Where a scraped product comes from. *)
Lemma scrape_products_from (hrefs : list string) :
  forall seen u,
    In u (scrape_products hrefs seen) ->
    exists href,
      In href hrefs
      /\ u = product_page (href_handle href)
      /\ falsy (href_handle href) = false
      /\ ~ In (href_handle href) seen.
Proof.
  induction hrefs as [|href rest IH]; intros seen u Hin; [contradiction|].
  simpl in Hin.
  assert (Hrest : forall seen', (forall x, In x seen -> In x seen') ->
                    In u (scrape_products rest seen') ->
                    exists href0,
                      In href0 (href :: rest)
                      /\ u = product_page (href_handle href0)
                      /\ falsy (href_handle href0) = false
                      /\ ~ In (href_handle href0) seen).
  { intros seen' Hs Hu. destruct (IH _ _ Hu) as (h0 & H0 & Hu0 & Hf & Hn).
    exists h0. split; [now right|]. split; [exact Hu0|]. split; [exact Hf|].
    intros Hx. apply Hn. now apply Hs. }
  destruct (contains "/products/" href); [|apply (Hrest seen); auto].
  destruct (negb (falsy (href_handle href))
            && negb (existsb (String.eqb (href_handle href)) seen)) eqn:E;
    [|apply (Hrest seen); auto].
  apply andb_true_iff in E as [Ef Es].
  apply negb_true_iff in Ef, Es.
  destruct Hin as [<- | Hin].
  - exists href. split; [now left|]. split; [reflexivity|]. split; [exact Ef|].
    now apply existsb_eqb_false.
  - apply (Hrest (href_handle href :: seen)); [|exact Hin].
    intros x Hx. now right.
Qed.

Lemma scrape_products_nodup (hrefs : list string) :
  forall seen, NoDup (scrape_products hrefs seen).
Proof.
  induction hrefs as [|href rest IH]; intros seen; [constructor|]. simpl.
  destruct (contains "/products/" href); [|apply IH].
  destruct (negb (falsy (href_handle href))
            && negb (existsb (String.eqb (href_handle href)) seen)); [|apply IH].
  constructor; [|apply IH].
  intros Hin. destruct (scrape_products_from _ _ _ Hin) as (h0 & _ & Hu & _ & Hn).
  apply product_page_inj in Hu. apply Hn. rewrite <- Hu. now left.
Qed.

(** [split('/products/')[-1]] on a product page of the store. *)
Lemma last_split_products (h : string) :
  contains "/products/" h = false ->
  last (split "/products/" (product_page h)) EmptyString = h.
Proof.
  intros H. unfold split, product_page.
  assert (F : find "/products/" ("https://rezagemcollection.ca/products/" ++ h)
              = Some 28) by (vm_compute; reflexivity).
  cbn [split_fuel]. rewrite F.
  assert (R : slice_from (28 + String.length "/products/")
                         ("https://rezagemcollection.ca/products/" ++ h) = h)
    by reflexivity.
  rewrite R.
  rewrite (split_fuel_enough "/products/" ltac:(discriminate) _
             (S (String.length h)) h).
  - change (split_fuel (S (String.length h)) "/products/" h)
      with (split "/products/" h).
    now rewrite (split_none _ _ H).
  - rewrite length_append. simpl. lia.
  - lia.
Qed.

Lemma product_handle_of_page (h : string) :
  contains "/products/" h = false ->
  contains "?" h = false ->
  product_handle (product_page h) = h.
Proof.
  intros Hp Hq. unfold product_handle.
  rewrite (last_split_products h Hp). now rewrite (split_none _ _ Hq).
Qed.

Lemma falsy_false (s : string) : falsy s = false -> s <> EmptyString.
Proof. intros H ->. discriminate. Qed.

Lemma get_collection_products_fallback (collection_url : string) (r : response) :
  requests_get (collection_json_url (collection_handle collection_url)) = Some r ->
  status_code r <> 200 \/ json_products r = Some [] ->
  get_collection_products BeautifulSoup requests_get collection_url
  = scrape_collection BeautifulSoup requests_get collection_url.
Proof.
  intros G H. unfold get_collection_products. rewrite G.
  destruct (Nat.eqb (status_code r) 200) eqn:E; [|reflexivity].
  apply Nat.eqb_eq in E. destruct H as [H | ->]; [contradiction | reflexivity].
Qed.

(** X6. When the JSON of the collection is not served, or lists no
    product, the products [get_collection_products] scrapes off the page
    are all different, and each is the product page of a handle that is
    not empty, has no white space at either end and no [?] or [#]. *)
Theorem scraped_products_distinct (collection_url : string) (r : response) :
  requests_get (collection_json_url (collection_handle collection_url)) = Some r ->
  status_code r <> 200 \/ json_products r = Some [] ->
  NoDup (get_collection_products BeautifulSoup requests_get collection_url)
  /\ forall u,
      In u (get_collection_products BeautifulSoup requests_get collection_url) ->
      exists h,
        u = product_page h /\ h <> EmptyString /\ strip h = h
        /\ contains "?" h = false /\ contains "#" h = false.
Proof.
  intros G H. rewrite (get_collection_products_fallback _ _ G H).
  unfold scrape_collection.
  destruct (requests_get collection_url) as [page|].
  - split; [apply scrape_products_nodup|].
    intros u Hin. destruct (scrape_products_from _ _ _ Hin) as (href & _ & Hu & Hf & _).
    destruct (href_handle_clean href) as (Hs & Hq & Hh & _).
    exists (href_handle href). repeat split; auto. now apply falsy_false.
  - split; [constructor | contradiction].
Qed.

(** X7. For every product scraped off the collection page,
    [get_product_description] reads the handle the product page was made
    from, and so fetches the page's own URL with [.json] added. *)
Theorem scraped_product_json_url (collection_url u : string) :
  In u (scrape_collection BeautifulSoup requests_get collection_url) ->
  product_page (product_handle u) = u
  /\ product_json_url u = u ++ ".json".
Proof.
  unfold scrape_collection.
  destruct (requests_get collection_url) as [page|]; [|contradiction].
  intros Hin. destruct (scrape_products_from _ _ _ Hin) as (href & _ & -> & _ & _).
  destruct (href_handle_clean href) as (_ & Hq & _ & Hp).
  unfold product_json_url. rewrite (product_handle_of_page _ Hp Hq).
  split; [reflexivity|]. unfold product_page. now rewrite append_assoc.
Qed.

End FurtherCollection.

(** * Further properties: the pass and the run *)

Section FurtherPass.
Import StrFacts ReFacts SplitFacts StripFacts.

Variable BeautifulSoup : string -> node.
Variable requests_get : string -> option response.

Lemma contains_nil (s : string) : contains EmptyString s = true.
Proof. unfold contains. destruct s; reflexivity. Qed.

Lemma paragraphs_after_p (h2 : node) :
  forall tags found_h2 p,
    In p (paragraphs_after h2 found_h2 tags) -> has_name "p" p = true.
Proof.
  induction tags as [|tag rest IH]; intros found p Hin; simpl in Hin;
    [contradiction|].
  destruct (node_eqb tag h2); [now apply (IH true)|].
  destruct found; [|now apply (IH false)].
  destruct (has_name "p" tag) eqn:Np.
  - destruct Hin as [<- | Hin]; [exact Np | now apply (IH true)].
  - destruct (has_name "h2" tag); [contradiction | now apply (IH true)].
Qed.

Lemma scoped_block_p (html : string) (p : node) :
  In p (scoped_block BeautifulSoup html) -> has_name "p" p = true.
Proof.
  unfold scoped_block.
  destruct (find_heading (BeautifulSoup html)); [|contradiction].
  apply paragraphs_after_p.
Qed.

(** The markup of a paragraph begins with its tag. *)
Lemma str_p (p : node) :
  has_name "p" p = true -> exists r, str p = String "<" (String "p" r).
Proof.
  destruct p as [s | nm attrs cs]; simpl; [discriminate|]. intros H.
  apply String.eqb_eq in H. subst nm.
  destruct cs; simpl; eexists; reflexivity.
Qed.

(** X3. For the empty word, which a doubled or trailing comma in the
    keywords field gives, [add_link_to_word] takes the first paragraph of
    the scope region, unless it has a link to the target, and writes an
    empty anchor inside the paragraph's own tag, right after its [<]. *)
Theorem empty_word_opens_tag (html link_url : string) (p : node)
        (rest : list node) :
  falsy html = false ->
  scoped_block BeautifulSoup html = p :: rest ->
  has_link p EmptyString link_url = false ->
  slice_to 2 (str p) = "<p"
  /\ add_link_to_word BeautifulSoup html EmptyString link_url
     = replace1 html (str p)
         ("<" ++ anchor link_url EmptyString ++ slice_from 1 (str p)).
Proof.
  intros Hf Hs Hl.
  assert (Hp : has_name "p" p = true)
    by (apply (scoped_block_p html); rewrite Hs; now left).
  destruct (str_p p Hp) as [r Hr].
  split; [rewrite Hr; destruct r; reflexivity|].
  rewrite add_link_scoped, Hf, Hs, link_paragraphs_cons.
  change (lower EmptyString) with EmptyString.
  rewrite contains_nil, Hl. simpl negb. cbv iota.
  assert (S : search EmptyString (str p) = Some (MatchObj 1 1 EmptyString))
    by (rewrite Hr; reflexivity).
  assert (I : inside_anchor (slice_to 1 (str p)) = false)
    by (rewrite Hr; destruct r; reflexivity).
  assert (C : candidate (str p) EmptyString = Some (MatchObj 1 1 EmptyString))
    by (unfold candidate; rewrite S; cbn [m_start]; now rewrite I).
  rewrite C. f_equal. unfold sub1. rewrite S. cbn [m_start m_end].
  rewrite (replace_outside _ _ (MatchObj 1 1 EmptyString) I).
  rewrite Hr. reflexivity.
Qed.

(** X14. A paragraph of the scope region that has the word in its text
    and already a link to the target around it ends [add_link_to_word]
    with the document unchanged, when the paragraphs before it were
    passed over; the paragraphs after it are not looked at. *)
Theorem linked_paragraph_ends_pass (html word link_url : string)
        (before rest : list node) (p : node) :
  scoped_block BeautifulSoup html = (before ++ p :: rest)%list ->
  (forall q, In q before -> passed_over q word link_url = true) ->
  contains (lower word) (lower (get_text p)) = true ->
  has_link p word link_url = true ->
  add_link_to_word BeautifulSoup html word link_url = html.
Proof.
  intros Hs Hb Ht Hl. rewrite add_link_scoped, Hs.
  destruct (falsy html); [reflexivity|].
  rewrite (link_paragraphs_passed_over _ _ _ _ _ Hb).
  now rewrite link_paragraphs_cons, Ht, Hl.
Qed.

(** X10. Without a token or without a store name, [process_product]
    leaves the descriptions the shop serves as they were and never
    answers that the product was updated; without a token it does not
    call [update_product] at all. *)
Theorem no_credentials_no_update (sh : shop) (product_url : string)
        (words : list string) (link_url : string) :
  falsy (shopify_token sh) = true \/ falsy (shopify_store sh) = true ->
  storefront (snd (process_product BeautifulSoup sh product_url words link_url))
  = storefront sh
  /\ (forall n, fst (process_product BeautifulSoup sh product_url words link_url)
                <> success n true)
  /\ (falsy (shopify_token sh) = true ->
      snd (process_product BeautifulSoup sh product_url words link_url) = sh).
Proof.
  intros H.
  destruct (get_product_description sh product_url) as [d gid] eqn:G.
  rewrite (process_product_eq _ _ _ _ _ _ _ G).
  destruct (falsy d); [simpl; repeat split; auto; discriminate|].
  destruct (check_already_linked BeautifulSoup d words link_url);
    [simpl; repeat split; auto; discriminate|].
  destruct (add_links BeautifulSoup d words link_url) as [h k].
  destruct (Nat.eqb k 0); [simpl; repeat split; auto; discriminate|].
  destruct (falsy (shopify_token sh)) eqn:T.
  - rewrite andb_false_r. simpl. repeat split; auto; discriminate.
  - destruct H as [H | H]; [discriminate|].
    destruct (negb (falsy gid) && negb false);
      [|simpl; repeat split; auto; discriminate].
    unfold update_product.
    cbn [shopify_token shopify_store admin_accepts storefront update_calls].
    rewrite T, H. simpl. repeat split; auto; discriminate.
Qed.

(** X8. [process_product] never touches the credentials; it leaves the
    shop as it was whenever its answer is not [success]; and it calls
    [update_product] at most once, with the id fetched for the product
    and the document as the loop over the words left it. *)
Theorem update_only_on_success (sh : shop) (product_url : string)
        (words : list string) (link_url : string) :
  shopify_token (snd (process_product BeautifulSoup sh product_url words link_url))
  = shopify_token sh
  /\ shopify_store (snd (process_product BeautifulSoup sh product_url words link_url))
     = shopify_store sh
  /\ (is_success (fst (process_product BeautifulSoup sh product_url words link_url))
      = false ->
      snd (process_product BeautifulSoup sh product_url words link_url) = sh)
  /\ (update_calls (snd (process_product BeautifulSoup sh product_url words link_url))
      = update_calls sh
      \/ update_calls (snd (process_product BeautifulSoup sh product_url words link_url))
         = (update_calls sh
            ++ [(snd (get_product_description sh product_url),
                 fst (add_links BeautifulSoup
                        (fst (get_product_description sh product_url))
                        words link_url))])%list).
Proof.
  destruct (get_product_description sh product_url) as [d gid] eqn:G.
  rewrite (process_product_eq _ _ _ _ _ _ _ G). simpl fst. simpl snd.
  destruct (falsy d); [simpl; auto|].
  destruct (check_already_linked BeautifulSoup d words link_url); [simpl; auto|].
  destruct (add_links BeautifulSoup d words link_url) as [h k].
  destruct (Nat.eqb k 0); [simpl; auto|].
  destruct (negb (falsy gid) && negb (falsy (shopify_token sh)));
    [|simpl; repeat split; auto; discriminate].
  unfold update_product.
  cbn [shopify_token shopify_store admin_accepts storefront update_calls].
  destruct (falsy (shopify_token sh) || falsy (shopify_store sh));
    [simpl; repeat split; auto; discriminate|].
  destruct (admin_accepts sh gid h); simpl; repeat split; auto; discriminate.
Qed.





End FurtherPass.

(** * Further properties: the collection dropdown *)

Section FurtherDropdown.
Import Dropdown StrFacts SplitFacts.

Lemma lower_append (a b : string) : lower (a ++ b) = lower a ++ lower b.
Proof. induction a as [|c a IH]; simpl; [reflexivity | now rewrite IH]. Qed.

(** What is found in the handle is found in the title shown. *)
Lemma display_has_handle (search_text : string) (col : collection) :
  contains search_text (lower (get_or EmptyString (handle col))) = true ->
  contains search_text (lower (display col)) = true.
Proof.
  intros H. unfold display. rewrite !lower_append, <- append_assoc.
  now apply contains_inside.
Qed.

Lemma skipn_cons_nth (A : Type) (i : nat) :
  forall (data : list A) x rest,
    skipn i data = x :: rest ->
    nth_error data i = Some x /\ skipn (S i) data = rest.
Proof.
  induction i as [|i IH]; intros data x rest H.
  - simpl in H. subst data. auto.
  - destruct data as [|y data]; [discriminate|]. simpl in H.
    destruct (IH _ _ _ H) as [H1 H2]. auto.
Qed.

(** With the titles in step the filter loop never misses an index, and it
    keeps the titles that have the text in them. *)
Lemma filter_titles_shown (search_text : string) (data : list collection) :
  forall l i,
    skipn i data = l ->
    filter_titles search_text i (map display l) data
    = Some (filter (fun t => contains search_text (lower t)) (map display l)).
Proof.
  induction l as [|col rest IH]; intros i H; [reflexivity|].
  destruct (skipn_cons_nth _ _ _ _ _ H) as [Hn Hs].
  simpl. rewrite Hn, (IH _ Hs).
  destruct (contains search_text (lower (display col))) eqn:C; [reflexivity|].
  destruct (contains search_text (lower (get_or EmptyString (handle col)))) eqn:C2;
    [|reflexivity].
  apply display_has_handle in C2. congruence.
Qed.

Lemma filter_all (search_text : string) (l : list string) :
  falsy search_text = true ->
  filter (fun t => contains search_text (lower t)) l = l.
Proof.
  destruct search_text; [|discriminate]. intros _.
  induction l as [|t l IH]; simpl; [reflexivity|].
  unfold contains at 1. destruct (lower t); simpl; now rewrite IH.
Qed.

(** X12. After [load_collections_dropdown], whatever the file and the
    state before, the titles and the collections are in step: a file
    that was read gives its collections, their titles and the same
    titles as values, and a file that is missing or cannot be read
    leaves no title and no value. They are in step at the start, and
    [on_collection_search] and [on_collection_selected] keep them so. *)
Theorem titles_in_step (st : app) (file : json_file) (keysym : option string) :
  in_step initial
  /\ in_step (load_collections_dropdown st file)
  /\ (forall data,
         file = Loaded data ->
         collections_data (load_collections_dropdown st file) = data
         /\ all_collection_titles (load_collections_dropdown st file)
            = map display data
         /\ values (load_collections_dropdown st file) = map display data)
  /\ (file = Missing \/ file = Unreadable ->
      all_collection_titles (load_collections_dropdown st file) = []
      /\ values (load_collections_dropdown st file) = []
      /\ collections_data (load_collections_dropdown st file)
         = collections_data st)
  /\ (in_step st -> in_step (on_collection_search st keysym))
  /\ (in_step st -> in_step (on_collection_selected st)).
Proof.
  split; [now left|]. split; [|split; [|split; [|split]]].
  - destruct file as [| |[|col data]]; simpl; [now left | now left | now left |].
    right. reflexivity.
  - intros data ->. destruct data; simpl; auto.
  - intros [-> | ->]; simpl; auto.
  - intros H. unfold on_collection_search.
    destruct (match keysym with Some k => _ | None => _ end); [exact H|].
    destruct (falsy _); [exact H|].
    destruct (filter_titles _ _ _ _); exact H.
  - intros H. unfold on_collection_selected.
    destruct (selected_url st); exact H.
Qed.

(** X13. With the titles in step, a key that is not a special key makes
    [on_collection_search] show exactly the titles that have the typed
    text, stripped and in lower case, in their own lower case, in the
    order of the list: the look into the handle adds nothing, the handle
    being part of the title shown. *)
Theorem search_shows_matching_titles (st : app) (keysym : option string) :
  in_step st ->
  match keysym with
  | Some k => existsb (String.eqb k) special_keys
  | None => false
  end = false ->
  values (on_collection_search st keysym)
  = filter
      (fun t =>
         contains
           (strip (lower (if placeholder_active st
                             || String.eqb (dropdown_text st) collection_placeholder
                          then EmptyString else dropdown_text st)))
           (lower t))
      (all_collection_titles st).
Proof.
  intros H K. unfold on_collection_search. rewrite K.
  set (search := strip (lower (if placeholder_active st
                                  || String.eqb (dropdown_text st) collection_placeholder
                               then EmptyString else dropdown_text st))).
  destruct (falsy search) eqn:F.
  - simpl. now rewrite (filter_all _ _ F).
  - destruct H as [H | H].
    + rewrite H. reflexivity.
    + rewrite H.
      rewrite (filter_titles_shown search (collections_data st)
                                   (collections_data st) 0 eq_refl).
      reflexivity.
Qed.

Lemma select_by_title_from (selected_text : string) (data : list collection) :
  forall titles i url,
    select_by_title selected_text i titles data = Some url ->
    exists col,
      In col data /\ get_or EmptyString (handle col) <> EmptyString
      /\ url = collection_url (get_or EmptyString (handle col)).
Proof.
  induction titles as [|t rest IH]; intros i url H; simpl in H; [discriminate|].
  destruct (String.eqb t selected_text || contains selected_text t);
    [|now apply (IH (S i))].
  destruct (nth_error data i) as [col|] eqn:N; [|now apply (IH (S i))].
  destruct (falsy (get_or EmptyString (handle col))) eqn:F; simpl in H;
    [now apply (IH (S i))|].
  injection H as <-. exists col. split; [now apply (nth_error_In data i)|].
  split; [|reflexivity]. intros E. rewrite E in F. discriminate.
Qed.

Lemma select_by_search_from (search_text : string) :
  forall data url,
    select_by_search search_text data = Some url ->
    exists col,
      In col data /\ url = collection_url (get_or EmptyString (handle col)).
Proof.
  induction data as [|col rest IH]; intros url H; simpl in H; [discriminate|].
  destruct (contains search_text (lower (get_or EmptyString (handle col)))
            || contains search_text (lower (get_or EmptyString (title col)))).
  - injection H as <-. exists col. split; [now left | reflexivity].
  - destruct (IH _ H) as (c & Hin & Hu). exists c. split; [now right | exact Hu].
Qed.

(** X15. When [on_collection_selected] settles on a URL, it is the
    collection URL of the store for the handle of one of the loaded
    collections, and it is written to the collection URL field and to
    the link URL field alike; with an empty text, or the placeholder, or
    no collection found, nothing is changed. *)
Theorem selected_collection_url (st : app) :
  (forall url,
      selected_url st = Some url ->
      (exists col,
          In col (collections_data st)
          /\ url = collection_url (get_or EmptyString (handle col)))
      /\ collection_url_var (on_collection_selected st) = url
      /\ link_url_var (on_collection_selected st) = url
      /\ placeholder_active (on_collection_selected st) = false)
  /\ (selected_url st = None -> on_collection_selected st = st)
  /\ (dropdown_text st = EmptyString
      \/ dropdown_text st = collection_placeholder ->
      on_collection_selected st = st).
Proof.
  split; [|split].
  - intros url H. unfold on_collection_selected. rewrite H. simpl.
    split; [|auto]. unfold selected_url in H.
    destruct (falsy (dropdown_text st)
              || String.eqb (dropdown_text st) collection_placeholder);
      [discriminate|].
    destruct (select_by_title _ _ _ _) as [u|] eqn:T.
    + injection H as <-.
      destruct (select_by_title_from _ _ _ _ _ T) as (col & Hin & _ & Hu).
      now exists col.
    + now apply select_by_search_from in H.
  - intros H. unfold on_collection_selected. now rewrite H.
  - intros H. unfold on_collection_selected, selected_url.
    destruct H as [-> | ->]; [reflexivity|].
    now rewrite String.eqb_refl, orb_true_r.
Qed.

Lemma display_not_placeholder (col : collection) :
  falsy (display col) = false
  /\ String.eqb (display col) collection_placeholder = false.
Proof.
  assert (C : contains ")" (display col) = true).
  { unfold display. rewrite <- !append_assoc.
    rewrite <- (append_nil_r ")"). apply contains_append. }
  split.
  - destruct (display col); [discriminate | reflexivity].
  - apply String.eqb_neq. intros E. rewrite E in C. discriminate.
Qed.

(** The first loop of [on_collection_selected] on the titles shown, when
    the text is the title of a collection and no title before has it. *)
Lemma select_by_title_shown (data : list collection) (col : collection)
      (h : string) :
  handle col = Some h -> h <> EmptyString ->
  forall l k i,
    skipn i data = l ->
    nth_error l k = Some col ->
    (forall j c, j < k -> nth_error l j = Some c ->
                 contains (display col) (display c) = false) ->
    select_by_title (display col) i (map display l) data
    = Some (collection_url h).
Proof.
  intros Hh Hne. induction l as [|c rest IH]; intros k i Hs Hk Hb.
  - destruct k; discriminate.
  - destruct (skipn_cons_nth _ _ _ _ _ Hs) as [Hn Hs'].
    destruct k as [|k]; simpl in Hk |- *.
    + injection Hk as ->. rewrite String.eqb_refl, Hn, Hh. simpl.
      destruct h; [contradiction | reflexivity].
    + pose proof (Hb 0 c (Nat.lt_0_succ k) eq_refl) as C.
      destruct (String.eqb (display c) (display col)) eqn:E.
      * apply String.eqb_eq in E. rewrite E, contains_refl in C. discriminate.
      * rewrite C. simpl. apply (IH k (S i) Hs' Hk).
        intros j c' Hj Hc'. apply (Hb (S j) c'); [lia | exact Hc'].
Qed.

(** X17. With the titles in step, when the text of the dropdown is the
    title shown for a collection with a handle and no title before it in
    the list has that text in it, [on_collection_selected] writes the
    collection URL of that handle to both fields. *)
Theorem picked_title_selects (st : app) (i : nat) (col : collection)
        (h : string) :
  all_collection_titles st = map display (collections_data st) ->
  nth_error (collections_data st) i = Some col ->
  handle col = Some h -> h <> EmptyString ->
  dropdown_text st = display col ->
  (forall j c, j < i -> nth_error (collections_data st) j = Some c ->
               contains (display col) (display c) = false) ->
  collection_url_var (on_collection_selected st) = collection_url h
  /\ link_url_var (on_collection_selected st) = collection_url h.
Proof.
  intros Ht Hn Hh Hne Hd Hb.
  assert (U : selected_url st = Some (collection_url h)).
  { unfold selected_url. rewrite Hd.
    destruct (display_not_placeholder col) as [-> ->]. simpl.
    rewrite Ht.
    now rewrite (select_by_title_shown (collections_data st) col h Hh Hne
                   (collections_data st) i 0 eq_refl Hn Hb). }
  unfold on_collection_selected. rewrite U. auto.
Qed.

End FurtherDropdown.

(** * The further properties on the examples *)

Import Showcase.

Lemma parse_words_clean_witness :
  contains "," "blue ring" = false /\ strip "blue ring" = "blue ring".
Proof.
  apply (proj2 (proj2 (parse_words_clean " Sapphire , blue ring,")) "blue ring").
  vm_compute. right. left. reflexivity.
Defined.

Lemma empty_word_opens_tag_witness :
  slice_to 2 (str hand_cut_node) = "<p"
  /\ add_link_to_word html_parser sapphire EmptyString link_url
     = replace1 sapphire (str hand_cut_node)
         ("<" ++ anchor link_url EmptyString ++ slice_from 1 (str hand_cut_node)).
Proof.
  apply (empty_word_opens_tag html_parser sapphire link_url
                              hand_cut_node [sapphire_node]);
    vm_compute; reflexivity.
Defined.

Lemma collection_handle_of_url_witness :
  collection_handle (Dropdown.collection_url "gold-rings") = "gold-rings".
Proof.
  apply (collection_handle_of_url "gold-rings"); vm_compute; reflexivity.
Defined.

Lemma shop_domain_myshopify_witness :
  shop_domain "rezagem.myshopify.com" = "rezagem.myshopify.com".
Proof.
  apply (proj1 (proj2 (shop_domain_myshopify "rezagem.myshopify.com"))).
  vm_compute. reflexivity.
Defined.

Lemma scraped_products_distinct_witness :
  NoDup (get_collection_products html_parser web rings_url)
  /\ forall u,
      In u (get_collection_products html_parser web rings_url) ->
      exists h,
        u = product_page h /\ h <> EmptyString /\ strip h = h
        /\ contains "?" h = false /\ contains "#" h = false.
Proof.
  apply (scraped_products_distinct html_parser web rings_url
                                   (Response 404 None EmptyString)).
  - vm_compute. reflexivity.
  - left. simpl. lia.
Defined.

Lemma scraped_product_json_url_witness :
  product_page (product_handle blue_ring) = blue_ring
  /\ product_json_url blue_ring = blue_ring ++ ".json".
Proof.
  apply (scraped_product_json_url html_parser web rings_url blue_ring).
  vm_compute. left. reflexivity.
Defined.

Lemma linked_paragraph_ends_pass_witness :
  add_link_to_word html_parser sapphire_linked "Sapphire" link_url
  = sapphire_linked.
Proof.
  apply (linked_paragraph_ends_pass html_parser sapphire_linked "Sapphire"
           link_url [hand_cut_node] [] sapphire_linked_node).
  - vm_compute. reflexivity.
  - intros q [<- | []]. vm_compute. reflexivity.
  - vm_compute. reflexivity.
  - vm_compute. reflexivity.
Defined.

Lemma no_credentials_no_update_witness :
  storefront (snd (process_product html_parser shop_no_token product_url
                                   ["Sapphire"] link_url))
  = storefront shop_no_token
  /\ (forall n, fst (process_product html_parser shop_no_token product_url
                                     ["Sapphire"] link_url)
                <> success n true)
  /\ (falsy (shopify_token shop_no_token) = true ->
      snd (process_product html_parser shop_no_token product_url
                           ["Sapphire"] link_url) = shop_no_token).
Proof.
  apply (no_credentials_no_update html_parser shop_no_token product_url
                                  ["Sapphire"] link_url).
  left. reflexivity.
Defined.

Lemma update_only_on_success_witness :
  snd (process_product html_parser (shop_with sapphire true) product_url
                       ["Topaz"] link_url)
  = shop_with sapphire true.
Proof.
  apply (proj1 (proj2 (proj2 (update_only_on_success
                                 html_parser (shop_with sapphire true)
                                 product_url ["Topaz"] link_url)))).
  vm_compute. reflexivity.
Defined.


Lemma titles_in_step_witness :
  Dropdown.in_step
    (Dropdown.on_collection_search (loaded "gold") (Some "d"))
  /\ Dropdown.in_step (Dropdown.on_collection_selected (loaded "gold"))
  /\ Dropdown.collections_data
       (Dropdown.load_collections_dropdown
          Dropdown.initial (Dropdown.Loaded [rings; gold_rings; sale]))
     = [rings; gold_rings; sale].
Proof.
  destruct (titles_in_step Dropdown.initial
              (Dropdown.Loaded [rings; gold_rings; sale]) (Some "d"))
    as (_ & _ & HL & _ & _ & _).
  destruct (titles_in_step (loaded "gold") Dropdown.Missing (Some "d"))
    as (_ & _ & _ & _ & HS & HC).
  split; [apply HS; right; reflexivity|].
  split; [apply HC; right; reflexivity|].
  apply (HL [rings; gold_rings; sale]). reflexivity.
Defined.

Lemma search_shows_matching_titles_witness :
  Dropdown.values (Dropdown.on_collection_search (loaded "  GOLD ") (Some "d"))
  = ["Gold Rings (gold-rings)"].
Proof.
  rewrite (search_shows_matching_titles (loaded "  GOLD ") (Some "d")).
  - vm_compute. reflexivity.
  - right. reflexivity.
  - reflexivity.
Defined.

Lemma selected_collection_url_witness :
  Dropdown.collection_url_var (Dropdown.on_collection_selected (loaded "ings"))
  = Dropdown.collection_url "rings"
  /\ Dropdown.on_collection_selected (loaded EmptyString) = loaded EmptyString.
Proof.
  destruct (selected_collection_url (loaded "ings")) as (H1 & _ & _).
  destruct (selected_collection_url (loaded EmptyString)) as (_ & _ & H3).
  split.
  - apply (H1 (Dropdown.collection_url "rings")). vm_compute. reflexivity.
  - apply H3. left. reflexivity.
Defined.

Lemma picked_title_selects_witness :
  Dropdown.collection_url_var
    (Dropdown.on_collection_selected (loaded "Gold Rings (gold-rings)"))
  = Dropdown.collection_url "gold-rings"
  /\ Dropdown.link_url_var
       (Dropdown.on_collection_selected (loaded "Gold Rings (gold-rings)"))
     = Dropdown.collection_url "gold-rings".
Proof.
  apply (picked_title_selects
           (loaded "Gold Rings (gold-rings)") 1 gold_rings "gold-rings").
  - reflexivity.
  - reflexivity.
  - reflexivity.
  - discriminate.
  - reflexivity.
  - intros j c Hj Hc. destruct j as [|j]; [|lia].
    injection Hc as <-. vm_compute. reflexivity.
Defined.
